(** * WebSocket fan-out managers of calendarKodaii

    A shallow embedding of [src/app/core/websocket/manager.py]
    ([WebSocketManager]) and [src/app/core/websocket/redis_manager.py]
    ([RedisWebSocketManager]).

    The Python methods mutate [self], talk to peer sockets and to a Redis
    store, and raise or swallow exceptions.  They are embedded as
    computations in a state-and-exception monad: a raised exception
    leaves the state as it was at the raise (Python does not roll back),
    and [try_except] is Python's [try: ... except Exception: ...]. *)

From stdpp Require Import gmap strings list fin_maps.
From Stdlib Require Import ZArith Ascii String DecimalString DecimalZ.

Set Warnings "-register-all".
Local Open Scope Z_scope.

(** ** JSON values and Python dictionaries with string keys *)

Inductive json : Type :=
| JNull
| JBool (b : bool)
| JNum (n : Z)
| JStr (s : string)
| JArr (items : list json)
| JObj (fields : list (string * json)).

(** A [dict] whose keys are strings, in insertion order. *)
Abbreviation pydict := (list (string * json)).

(** [d[k]] / [d.get(k)]: the value stored under [k], if any. *)
Fixpoint dict_get (k : string) (d : pydict) : option json :=
  match d with
  | [] => None
  | (k', v) :: d' => if String.eqb k k' then Some v else dict_get k d'
  end.

(** [d[k] = v]: overwrite in place, or append a new key. *)
Fixpoint dict_set (k : string) (v : json) (d : pydict) : pydict :=
  match d with
  | [] => [(k, v)]
  | (k', v') :: d' =>
      if String.eqb k k' then (k, v) :: d' else (k', v') :: dict_set k v d'
  end.

(** [list.remove(x)]: drops the first occurrence only. *)
Fixpoint list_remove_first (x : string) (l : list string) : list string :=
  match l with
  | [] => []
  | y :: l' => if decide (x = y) then l' else y :: list_remove_first x l'
  end.

(** [if user_id:] -- [None] and [0] are both falsy. *)
Definition truthy (user_id : option Z) : bool :=
  match user_id with
  | Some n => negb (n =? 0)
  | None => false
  end.

(** ** Python text helpers *)

(** [str(n)] for an [int]. *)
Definition py_str (n : Z) : string := NilZero.string_of_int (Z.to_int n).

(** [s.split(sep)] for a one-character separator: never empty. *)
Fixpoint split_on (sep : ascii) (s : string) : list string :=
  match s with
  | EmptyString => [EmptyString]
  | String a s' =>
      let r := split_on sep s' in
      if Ascii.eqb a sep then EmptyString :: r
      else match r with
           | x :: xs => String a x :: xs
           | [] => [String a EmptyString]
           end
  end.


(** The characters that [int()] skips around a number: tab, line feed,
    vertical tab, form feed, carriage return and space. *)
Definition is_space (a : ascii) : bool :=
  let n := nat_of_ascii a in
  ((9 <=? n) && (n <=? 13) || (n =? 32))%nat.

Definition digit_value (a : ascii) : option Z :=
  let n := nat_of_ascii a in
  if ((48 <=? n) && (n <=? 57))%nat then Some (Z.of_nat (n - 48)) else None.

Fixpoint lstrip (s : string) : string :=
  match s with
  | String a s' => if is_space a then lstrip s' else s
  | EmptyString => EmptyString
  end.

Fixpoint rstrip (s : string) : string :=
  match s with
  | String a s' =>
      match rstrip s' with
      | EmptyString => if is_space a then EmptyString else String a EmptyString
      | r => String a r
      end
  | EmptyString => EmptyString
  end.

(** Decimal digits, where single underscores may separate digits. *)
Fixpoint digits (s : string) (acc : Z) (after_digit : bool) : option Z :=
  match s with
  | EmptyString => if after_digit then Some acc else None
  | String a s' =>
      match digit_value a with
      | Some d => digits s' (10 * acc + d) true
      | None =>
          if Ascii.eqb a "_" && after_digit then digits s' acc false
          else None
      end
  end.

(** [int(s)] in base 10 on [bytes], and on a [str] of ASCII characters:
    surrounding blanks, an optional sign, digits.  [None] stands for
    [ValueError].  On a [str] with other characters [int()] also reads
    the decimal digits and blanks of other scripts, which are not
    written here; and the interpreter's cap on the length of a number's
    text, where one is set, is left out. *)
Definition py_int (s : string) : option Z :=
  match lstrip (rstrip s) with
  | String "-" s' => Z.opp <$> digits s' 0 false
  | String "+" s' => digits s' 0 false
  | s' => digits s' 0 false
  end.

(** Whether every character of [s] is an ASCII character. *)
Fixpoint ascii_only (s : string) : bool :=
  match s with
  | EmptyString => true
  | String a s' => (nat_of_ascii a <? 128)%nat && ascii_only s'
  end.

(** [sys.int_info.str_digits_check_threshold]: no setting of the
    interpreter caps the text of a number of so many digits or fewer. *)
Definition str_digits_check_threshold : nat := 640.

(** A [str] on which [int()] is [py_int] under every interpreter: ASCII
    characters only, and no longer than the shortest cap. *)
Definition plain_text (s : string) : bool :=
  ascii_only s && (String.length s <=? str_digits_check_threshold)%nat.

(** ** Exceptions and the monad *)

Inductive exn : Type :=
| KeyError
| ValueError
| IndexError
| AttributeError
| RuntimeError
| JSONDecodeError
| RedisError            (* any transport failure of the store client *)
| WebSocketError        (* accept / send_json on a closed socket *)
| CancelledError.       (* asyncio.CancelledError, a BaseException *)

(** [except Exception] catches everything but [CancelledError]. *)
Definition is_Exception (e : exn) : bool :=
  match e with
  | CancelledError => false
  | _ => true
  end.

Inductive res (A : Type) : Type :=
| Ok (a : A)
| Raise (e : exn).
Arguments Ok {A} a.
Arguments Raise {A} e.

Definition M (Σ A : Type) : Type := Σ → res A * Σ.

Definition ret {Σ A} (a : A) : M Σ A := λ σ, (Ok a, σ).

Definition bind {Σ A B} (m : M Σ A) (k : A → M Σ B) : M Σ B :=
  λ σ, match m σ with
       | (Ok a, σ') => k a σ'
       | (Raise e, σ') => (Raise e, σ')
       end.

Definition raise {Σ A} (e : exn) : M Σ A := λ σ, (Raise e, σ).

Definition gets {Σ A} (f : Σ → A) : M Σ A := λ σ, (Ok (f σ), σ).

Definition modify {Σ} (f : Σ → Σ) : M Σ unit := λ σ, (Ok tt, f σ).

(** [try: body  except Exception as e: handler e] *)
Definition try_except {Σ A} (body : M Σ A) (handler : exn → M Σ A) : M Σ A :=
  λ σ, match body σ with
       | (Ok a, σ') => (Ok a, σ')
       | (Raise e, σ') =>
           if is_Exception e then handler e σ' else (Raise e, σ')
       end.

(** [try: body  except asyncio.CancelledError: pass] *)
Definition try_except_cancelled {Σ} (body : M Σ unit) : M Σ unit :=
  λ σ, match body σ with
       | (Raise CancelledError, σ') => (Ok tt, σ')
       | r => r
       end.

Declare Scope monad_scope.
Delimit Scope monad_scope with monad.
Notation "'do' x <- m ; k" := (bind m (λ x, k))
  (at level 10, x name, m at level 100, k at level 200) : monad_scope.
Notation "'do' ' p <- m ; k" := (bind m (λ x, match x with p => k end))
  (at level 10, p pattern, m at level 100, k at level 200) : monad_scope.
Notation "m ;;; k" := (bind m (λ _, k))
  (at level 100, k at level 200, right associativity) : monad_scope.

Local Open Scope monad_scope.

(** [for x in xs: body x] *)
Fixpoint for_each {Σ X} (xs : list X) (body : X → M Σ unit) : M Σ unit :=
  match xs with
  | [] => ret tt
  | x :: xs' => body x ;;; for_each xs' body
  end.

(** Run a computation of the enclosing object inside a frame of local
    variables [F]. *)
Definition lift {F Σ A} (m : M Σ A) : M (F * Σ) A :=
  λ '(f, σ), let '(r, σ') := m σ in (r, (f, σ')).

(** Enter a function body with its local variables initialised to [f0];
    the frame is dropped when the body returns or raises. *)
Definition with_locals {F Σ A} (f0 : F) (body : M (F * Σ) A) : M Σ A :=
  λ σ, let '(r, (_, σ')) := body (f0, σ) in (r, σ').

Definition get_locals {F Σ} : M (F * Σ) F := gets fst.

Definition set_locals {F Σ} (g : F → F) : M (F * Σ) unit :=
  modify (λ '(f, σ), (g f, σ)).

(** ** The world around a manager object *)

(** A [WebSocket] object is referred to by its identity. *)
Abbreviation websocket := nat.

Inductive io_event : Type :=
| Accepted (ws : websocket)
| Sent (ws : websocket) (message : pydict)
| SendFailed (ws : websocket) (message : pydict).

Inductive log_record : Type :=
| Warning (msg : string)
| Error (msg : string).

(** The bytes held in a store value or a pub/sub payload, seen through
    [json.loads]: either the serialisation of a JSON value, or bytes that
    [json.loads] rejects. *)
Inductive wire : Type :=
| WJson (j : json)
| WRaw (bytes : string).

(** The Redis keys this code uses, one component per key family.  Key
    expiry ([EXPIRE], [SET ... EX]) is a real-time effect and is not
    represented: an expiry call only counts as a round-trip to the
    store. *)
Record store : Type := Store {
  (* hash  session:{session_id}:connections, field connection_id *)
  hashes : gmap (Z * string) wire;
  (* string  connection:{connection_id}:session *)
  reverse : gmap string string;
  (* integer  session:{session_id}:connection_count *)
  counters : gmap Z Z;
  (* PUBLISH channel payload, oldest first *)
  published : list (string * wire)
}.

Record World : Type := MkWorld {
  (* sockets whose peer is still connected *)
  open_sockets : gset websocket;
  (* calls made on WebSocket objects, oldest first *)
  io_trace : list io_event;
  (* warning and error records handed to the logger, oldest first *)
  log : list log_record;
  redis : store;
  (* one flag per coming store round-trip: [true] makes it raise *)
  faults : list bool;
  (* the event loop clock *)
  now : Z
}.

Definition set_io_trace (f : list io_event → list io_event) (w : World) : World :=
  MkWorld (open_sockets w) (f (io_trace w)) (log w) (redis w) (faults w) (now w).

Definition set_log (f : list log_record → list log_record) (w : World) : World :=
  MkWorld (open_sockets w) (io_trace w) (f (log w)) (redis w) (faults w) (now w).

Definition set_redis (f : store → store) (w : World) : World :=
  MkWorld (open_sockets w) (io_trace w) (log w) (f (redis w)) (faults w) (now w).

Definition set_faults (f : list bool → list bool) (w : World) : World :=
  MkWorld (open_sockets w) (io_trace w) (log w) (redis w) (f (faults w)) (now w).

Definition set_open_sockets (f : gset websocket → gset websocket) (w : World) : World :=
  MkWorld (f (open_sockets w)) (io_trace w) (log w) (redis w) (faults w) (now w).

(** [logger.warning(...)] / [logger.error(...)] *)
Definition logger (r : log_record) : M World unit :=
  modify (set_log (λ l, l ++ [r])).

(** [await websocket.accept()] *)
Definition accept (ws : websocket) : M World unit :=
  λ w, if decide (ws ∈ open_sockets w)
       then (Ok tt, set_io_trace (λ t, t ++ [Accepted ws]) w)
       else (Raise WebSocketError, w).

(** [await websocket.send_json(message)] *)
Definition send_json (ws : websocket) (message : pydict) : M World unit :=
  λ w, if decide (ws ∈ open_sockets w)
       then (Ok tt, set_io_trace (λ t, t ++ [Sent ws message]) w)
       else (Raise WebSocketError,
             set_io_trace (λ t, t ++ [SendFailed ws message]) w).

(** ** [manager.py]: the single-process manager *)

Module Manager.

Record WebSocketManager : Type := MkManager {
  active_connections : gmap string websocket;
  session_connections : gmap Z (list string);
  user_connections : gmap Z (list string)
}.

Abbreviation St := (WebSocketManager * World)%type.

Definition __init__ : WebSocketManager := MkManager ∅ ∅ ∅.

Definition set_active (f : gmap string websocket → gmap string websocket)
    : M St unit :=
  modify (λ '(s, w), (MkManager (f (active_connections s))
                        (session_connections s) (user_connections s), w)).

Definition set_sessions (f : gmap Z (list string) → gmap Z (list string))
    : M St unit :=
  modify (λ '(s, w), (MkManager (active_connections s)
                        (f (session_connections s)) (user_connections s), w)).

Definition set_users (f : gmap Z (list string) → gmap Z (list string))
    : M St unit :=
  modify (λ '(s, w), (MkManager (active_connections s)
                        (session_connections s) (f (user_connections s)), w)).

(** [index[key].append(connection_id)], creating the list first when
    [key not in index]. *)
Definition index_append (key : Z) (connection_id : string)
    (index : gmap Z (list string)) : gmap Z (list string) :=
  <[key := default [] (index !! key) ++ [connection_id]]> index.

(** The body of [disconnect] for one secondary index. *)
Definition index_remove (key : Z) (connection_id : string)
    (index : gmap Z (list string)) : gmap Z (list string) :=
  match index !! key with
  | None => index
  | Some conns =>
      let conns' := if decide (connection_id ∈ conns)
                    then list_remove_first connection_id conns
                    else conns in
      match conns' with
      | [] => delete key index
      | _ => <[key := conns']> index
      end
  end.

Definition connect (ws : websocket) (connection_id : string)
    (session_id : Z) (user_id : option Z) : M St unit :=
  lift (accept ws) ;;;
  set_active (λ a, <[connection_id := ws]> a) ;;;
  set_sessions (index_append session_id connection_id) ;;;
  match user_id with
  | Some uid =>
      if truthy user_id then set_users (index_append uid connection_id)
      else ret tt
  | None => ret tt
  end.

Definition disconnect (connection_id : string) (session_id : Z)
    (user_id : option Z) : M St unit :=
  set_active (λ a, delete connection_id a) ;;;
  set_sessions (index_remove session_id connection_id) ;;;
  match user_id with
  | Some uid =>
      if truthy user_id then set_users (index_remove uid connection_id)
      else ret tt
  | None => ret tt
  end.

(** Local variables of [send_to_session] and [send_to_user]. *)
Record send_locals : Type := MkLocals {
  connections_to_remove : list string;
  sent_count : nat
}.

Definition incr_sent (l : send_locals) : send_locals :=
  MkLocals (connections_to_remove l) (S (sent_count l)).

Definition mark_for_removal (connection_id : string) (l : send_locals)
    : send_locals :=
  MkLocals (connections_to_remove l ++ [connection_id]) (sent_count l).

(** [message['type']], evaluated for the debug record. *)
Definition message_type {Σ} (message : pydict) : M Σ json :=
  match dict_get "type" message with
  | Some v => ret v
  | None => raise KeyError
  end.

(** The body of the first [for] loop of [send_to_session]. *)
Definition session_step (message : pydict) (connection_id : string)
    : M (send_locals * St) unit :=
  do active <- lift (gets (λ σ, active_connections σ.1)) ;
  match active !! connection_id with
  | Some websocket =>
      try_except
        (lift (lift (send_json websocket message)) ;;;
         set_locals incr_sent ;;;
         do _ <- message_type message ;
         ret tt)
        (λ e,
         lift (lift (logger (Error "Error sending to {connection_id}: {e}"))) ;;;
         set_locals (mark_for_removal connection_id))
  | None => ret tt
  end.

(** The first [for] loop of [send_to_session]. *)
Definition session_pass (conns : list string) (message : pydict)
    : M (send_locals * St) unit :=
  for_each conns (session_step message).

Definition send_to_session (session_id : Z) (message : pydict) : M St nat :=
  do sessions <- gets (λ σ, session_connections σ.1) ;
  match sessions !! session_id with
  | None =>
      lift (logger (Warning "No active connections for session {session_id}")) ;;;
      ret 0%nat
  | Some conns =>
      with_locals (MkLocals [] 0)
        (session_pass conns message ;;;
         do l <- get_locals ;
         for_each (connections_to_remove l)
           (λ connection_id, lift (disconnect connection_id session_id None)) ;;;
         do l <- get_locals ;
         ret (sent_count l))
  end.

(** The body of the first [for] loop of [send_to_user]. *)
Definition user_step (message : pydict) (connection_id : string)
    : M (send_locals * St) unit :=
  do active <- lift (gets (λ σ, active_connections σ.1)) ;
  match active !! connection_id with
  | Some websocket =>
      try_except
        (lift (lift (send_json websocket message)) ;;;
         set_locals incr_sent)
        (λ e,
         lift (lift (logger (Error "Error sending to {connection_id}: {e}"))) ;;;
         set_locals (mark_for_removal connection_id))
  | None => ret tt
  end.

(** The first [for] loop of [send_to_user]. *)
Definition user_pass (conns : list string) (message : pydict)
    : M (send_locals * St) unit :=
  for_each conns (user_step message).

Definition send_to_user (user_id : Z) (message : pydict) : M St nat :=
  do users <- gets (λ σ, user_connections σ.1) ;
  match users !! user_id with
  | None =>
      lift (logger (Warning "No active connections for user {user_id}")) ;;;
      ret 0%nat
  | Some conns =>
      with_locals (MkLocals [] 0)
        (user_pass conns message ;;;
         do l <- get_locals ;
         for_each (connections_to_remove l) (λ _, ret tt) ;;;
         do l <- get_locals ;
         ret (sent_count l))
  end.

Definition get_session_connection_count (session_id : Z) : M St nat :=
  do sessions <- gets (λ σ, session_connections σ.1) ;
  ret (List.length (default [] (sessions !! session_id))).

Definition get_total_connections : M St nat :=
  do active <- gets (λ σ, active_connections σ.1) ;
  ret (size active).

(** What can happen to a manager: a call of one of its methods, or a peer
    going away or coming back. *)
Inductive op : Type :=
| Connect (ws : websocket) (connection_id : string) (session_id : Z)
    (user_id : option Z)
| Disconnect (connection_id : string) (session_id : Z) (user_id : option Z)
| SendToSession (session_id : Z) (message : pydict)
| SendToUser (user_id : Z) (message : pydict)
| PeerClosed (ws : websocket)
| PeerOpened (ws : websocket).

(** The state left by one operation, whether it returned or raised. *)
Definition step (σ : St) (o : op) : St :=
  match o with
  | Connect ws c sid uid => (connect ws c sid uid σ).2
  | Disconnect c sid uid => (disconnect c sid uid σ).2
  | SendToSession sid m => (send_to_session sid m σ).2
  | SendToUser uid m => (send_to_user uid m σ).2
  | PeerClosed ws => (σ.1, set_open_sockets (λ o, o ∖ {[ws]}) σ.2)
  | PeerOpened ws => (σ.1, set_open_sockets (λ o, {[ws]} ∪ o) σ.2)
  end.

Definition run (ops : list op) (σ : St) : St := foldl step σ ops.

(** No key of a secondary index is bound to the empty list. *)
Definition no_empty_lists (index : gmap Z (list string)) : Prop :=
  ∀ key conns, index !! key = Some conns → conns ≠ [].

(** The write that a send pass attempts for one indexed id: none when
    the id is not in [active_connections]. *)
Definition write_attempt (active : gmap string websocket)
    (open : gset websocket) (message : pydict) (connection_id : string)
    : option io_event :=
  match active !! connection_id with
  | Some ws =>
      Some (if decide (ws ∈ open) then Sent ws message
            else SendFailed ws message)
  | None => None
  end.

(** The ids whose write raises during a pass. *)
Definition write_raises (active : gmap string websocket)
    (open : gset websocket) (connection_id : string) : bool :=
  match active !! connection_id with
  | Some ws => bool_decide (ws ∉ open)
  | None => false
  end.

(** The ids that the [except] branch of [send_to_session] collects: the
    write raised, or the lookup [message['type']] after a good write
    did. *)
Definition collected (active : gmap string websocket)
    (open : gset websocket) (message : pydict) (connection_id : string)
    : bool :=
  match active !! connection_id with
  | Some ws =>
      bool_decide (ws ∉ open) || bool_decide (dict_get "type" message = None)
  | None => false
  end.

Definition is_sent (e : io_event) : bool :=
  match e with
  | Sent _ _ => true
  | _ => false
  end.

End Manager.

(** ** The store client *)

(** One round-trip to the store: it raises when the fault schedule says
    so, and otherwise runs the command on the store. *)
Definition store_call {A} (command : store → A * store) : M World A :=
  λ w, let w' := set_faults tail w in
       if hd false (faults w) then (Raise RedisError, w')
       else let '(a, r) := command (redis w) in (Ok a, set_redis (λ _, r) w').

(** HGETALL session:{session_id}:connections, as the items of the
    returned dict. *)
Definition hgetall (session_id : Z) (r : store) : list (string * wire) * store :=
  (omap (λ '((sid, connection_id), v),
           if decide (sid = session_id) then Some (connection_id, v) else None)
        (map_to_list (hashes r)), r).

(** HLEN session:{session_id}:connections *)
Definition hlen (session_id : Z) (r : store) : nat * store :=
  (List.length (hgetall session_id r).1, r).

(** HSET session:{session_id}:connections connection_id value *)
Definition hset (session_id : Z) (connection_id : string) (v : wire)
    (r : store) : unit * store :=
  (tt, Store (<[(session_id, connection_id) := v]> (hashes r))
         (reverse r) (counters r) (published r)).

(** HDEL session:{session_id}:connections connection_id *)
Definition hdel (session_id : Z) (connection_id : string) (r : store)
    : unit * store :=
  (tt, Store (delete (session_id, connection_id) (hashes r))
         (reverse r) (counters r) (published r)).

(** EXPIRE key seconds *)
Definition expire (r : store) : unit * store := (tt, r).

(** SET connection:{connection_id}:session value EX 3600 *)
Definition set_reverse (connection_id : string) (v : string) (r : store)
    : unit * store :=
  (tt, Store (hashes r) (<[connection_id := v]> (reverse r))
         (counters r) (published r)).

(** GET connection:{connection_id}:session *)
Definition get_reverse (connection_id : string) (r : store)
    : option string * store :=
  (reverse r !! connection_id, r).

(** DEL connection:{connection_id}:session *)
Definition delete_reverse (connection_id : string) (r : store) : unit * store :=
  (tt, Store (hashes r) (delete connection_id (reverse r))
         (counters r) (published r)).

(** INCR / DECR session:{session_id}:connection_count; a missing key
    counts as 0. *)
Definition incrby (delta : Z) (session_id : Z) (r : store) : Z * store :=
  let n := default 0 (counters r !! session_id) + delta in
  (n, Store (hashes r) (reverse r) (<[session_id := n]> (counters r))
        (published r)).

(** GET session:{session_id}:connection_count *)
Definition get_counter (session_id : Z) (r : store) : option Z * store :=
  (counters r !! session_id, r).

(** PUBLISH channel payload *)
Definition publish (channel : string) (payload : wire) (r : store)
    : unit * store :=
  (tt, Store (hashes r) (reverse r) (counters r)
         (published r ++ [(channel, payload)])).

(** PING, PSUBSCRIBE and closing a subscription do not touch the keys. *)
Definition ping (r : store) : unit * store := (tt, r).

Definition json_dumps (j : json) : wire := WJson j.

Definition json_loads {Σ} (v : wire) : M Σ json :=
  match v with
  | WJson j => ret j
  | WRaw _ => raise JSONDecodeError
  end.

(** [value.get(key)]: only a dict has [get]. *)
Definition py_get {Σ} (value : json) (key : string) : M Σ (option json) :=
  match value with
  | JObj fields => ret (dict_get key fields)
  | _ => raise AttributeError
  end.

(** [v == s] for the result [v] of [dict.get] and a [str] [s]. *)
Definition eq_str (v : option json) (s : string) : bool :=
  match v with
  | Some (JStr s') => String.eqb s' s
  | _ => false
  end.

(** What [pubsub.listen()] yields: a message dict, or a failure of the
    subscription's connection. *)
Record pubsub_message : Type := MkMessage {
  mtype : string;       (* message["type"] *)
  channel : string;     (* message["channel"] *)
  data : wire           (* message["data"] *)
}.

Inductive stream_item : Type :=
| Delivered (message : pubsub_message)
| Broken.

(** ** [redis_manager.py]: the manager coordinated through Redis *)

Module RedisManager.

(** The state of the [asyncio.Task] that runs the listener. *)
Inductive task_state : Type :=
| Running
| CancelRequested     (* [cancel()] called, not yet awaited *)
| Cancelled
| Finished.

(** [task.done()] *)
Definition done (t : task_state) : bool :=
  match t with
  | Cancelled | Finished => true
  | Running | CancelRequested => false
  end.

(** The [PubSub] object created by [self.redis.pubsub()]. *)
Record pubsub_state : Type := MkPubSub {
  patterns : list string;
  closed : bool
}.

Record RedisWebSocketManager : Type := MkManager {
  (* [self.redis is not None] *)
  redis_client : bool;
  local_connections : gmap string websocket;
  server_id : string;
  pubsub : option pubsub_state;
  _initialized : bool;
  _listener_task : option task_state
}.

Abbreviation St := (RedisWebSocketManager * World)%type.

(** [RedisWebSocketManager(redis_client)]; [sid] is the value drawn for
    [uuid.uuid4().hex[:8]]. *)
Definition __init__ (client : bool) (sid : string) : RedisWebSocketManager :=
  MkManager client ∅ sid None false None.

Definition self {A} (f : RedisWebSocketManager → A) : M St A :=
  gets (λ σ, f σ.1).

Definition set_local (f : gmap string websocket → gmap string websocket)
    : M St unit :=
  modify (λ '(s, w), (MkManager (redis_client s) (f (local_connections s))
                        (server_id s) (pubsub s) (_initialized s)
                        (_listener_task s), w)).

Definition set_pubsub (p : option pubsub_state) : M St unit :=
  modify (λ '(s, w), (MkManager (redis_client s) (local_connections s)
                        (server_id s) p (_initialized s)
                        (_listener_task s), w)).

Definition set_initialized (b : bool) : M St unit :=
  modify (λ '(s, w), (MkManager (redis_client s) (local_connections s)
                        (server_id s) (pubsub s) b (_listener_task s), w)).

Definition set_listener_task (t : option task_state) : M St unit :=
  modify (λ '(s, w), (MkManager (redis_client s) (local_connections s)
                        (server_id s) (pubsub s) (_initialized s) t, w)).

(** [await self.redis.<command>(...)]: an attribute access on [None]
    raises before any round-trip is made. *)
Definition call {A} (command : store → A * store) : M St A :=
  do client <- self redis_client ;
  if client then lift (store_call command) else raise AttributeError.

Definition log_warning (msg : string) : M St unit := lift (logger (Warning msg)).
Definition log_error (msg : string) : M St unit := lift (logger (Error msg)).

Definition initialize : M St unit :=
  do initialized <- self _initialized ;
  if initialized then ret tt
  else
    do client <- self redis_client ;
    if negb client then raise RuntimeError
    else
      try_except
        (call ping ;;;
         set_pubsub (Some (MkPubSub [] false)) ;;;
         (* await self.pubsub.psubscribe("session:*") *)
         lift (store_call ping) ;;;
         set_pubsub (Some (MkPubSub ["session:*"%string] false)) ;;;
         set_listener_task (Some Running) ;;;
         set_initialized true)
        (λ e,
         log_error "Failed to initialize Redis WebSocket manager: {e}" ;;;
         raise e).

Definition connection_info (me : string) (user_id : option Z) (t : Z) : json :=
  JObj [("server_id"%string, JStr me);
        ("user_id"%string, match user_id with Some u => JNum u | None => JNull end);
        ("connected_at"%string, JNum t);
        ("status"%string, JStr "active")].

Definition connect (ws : websocket) (connection_id : string)
    (session_id : Z) (user_id : option Z) : M St unit :=
  lift (accept ws) ;;;
  set_local (λ l, <[connection_id := ws]> l) ;;;
  do me <- self server_id ;
  do t <- lift (gets now) ;
  let connection_info := connection_info me user_id t in
  try_except
    (call (hset session_id connection_id (json_dumps connection_info)) ;;;
     call expire ;;;
     call (set_reverse connection_id (py_str session_id)) ;;;
     do _ <- call (incrby 1 session_id) ;
     call expire ;;;
     do count <- call (hlen session_id) ;
     ret tt)
    (λ e, log_error "Failed to register connection in Redis: {e}").

(** [int(session_id_bytes)] *)
Definition int_of {Σ} (bytes : string) : M Σ Z :=
  match py_int bytes with
  | Some n => ret n
  | None => raise ValueError
  end.

Definition disconnect (connection_id : string) : M St unit :=
  set_local (λ l, delete connection_id l) ;;;
  do initialized <- self _initialized ;
  if negb initialized then ret tt
  else
    try_except
      (do session_id_bytes <- call (get_reverse connection_id) ;
       match session_id_bytes with
       | Some (String a bytes) =>
           do session_id <- int_of (String a bytes) ;
           call (hdel session_id connection_id) ;;;
           call (delete_reverse connection_id) ;;;
           do _ <- call (incrby (-1) session_id) ;
           do count <- call (hlen session_id) ;
           ret tt
       | Some EmptyString | None => ret tt
       end)
      (λ e, log_error "Failed to cleanup Redis connection: {e}").

Definition get_session_connection_count (session_id : Z) : M St nat :=
  try_except
    (call (hlen session_id))
    (λ e, log_error "Error getting connection count: {e}" ;;; ret 0%nat).

(** Local variables of [_send_to_local_connections]. *)
Record send_locals : Type := MkLocals {
  connections_to_remove : list string;
  sent_count : nat
}.

Definition incr_sent (l : send_locals) : send_locals :=
  MkLocals (connections_to_remove l) (S (sent_count l)).

Definition mark_for_removal (connection_id : string) (l : send_locals)
    : send_locals :=
  MkLocals (connections_to_remove l ++ [connection_id]) (sent_count l).

(** The body of the [for] loop of [_send_to_local_connections]. *)
Definition local_step (message : pydict) (entry : string * wire)
    : M (send_locals * St) unit :=
  let '(connection_id, connection_info_str) := entry in
  try_except
    (do connection_info <- json_loads connection_info_str ;
     do owner <- py_get connection_info "server_id" ;
     do me <- lift (self server_id) ;
     if eq_str owner me then
       do local <- lift (self local_connections) ;
       match local !! connection_id with
       | Some websocket =>
           lift (lift (send_json websocket message)) ;;;
           set_locals incr_sent
       | None =>
           lift (log_warning
             "Connection {connection_id} in Redis but not in local connections") ;;;
           set_locals (mark_for_removal connection_id)
       end
     else ret tt)
    (λ e,
     lift (log_error "Error sending to connection {connection_id}: {e}") ;;;
     set_locals (mark_for_removal connection_id)).

(** The second [for] loop: clean up stale connections. *)
Definition remove_pass (conns : list string) : M St unit :=
  for_each conns disconnect.

Definition _send_to_local_connections (session_id : Z) (message : pydict)
    : M St nat :=
  try_except
    (do connections <- call (hgetall session_id) ;
     with_locals (MkLocals [] 0)
       (for_each connections (local_step message) ;;;
        do l <- get_locals ;
        lift (remove_pass (connections_to_remove l)) ;;;
        do l <- get_locals ;
        ret (sent_count l)))
    (λ e, log_error "Error in _send_to_local_connections: {e}" ;;; ret 0%nat).

Definition session_channel (session_id : Z) : string :=
  ("session:" ++ py_str session_id)%string.

Definition send_to_session (session_id : Z) (message : pydict) : M St nat :=
  do initialized <- self _initialized ;
  if negb initialized then
    log_warning "Redis not initialized, cannot send message" ;;;
    ret 0%nat
  else
    try_except
      (do me <- self server_id ;
       let message_with_server := dict_set "server_id" (JStr me) message in
       let channel := session_channel session_id in
       call (publish channel (json_dumps (JObj message_with_server))) ;;;
       do local_count <- _send_to_local_connections session_id message ;
       do total_count <- get_session_connection_count session_id ;
       ret total_count)
      (λ e,
       log_error "Failed to send message to session {session_id}: {e}" ;;;
       ret 0%nat).

(** [lst[i]] *)
Definition index {Σ A} (l : list A) (i : nat) : M Σ A :=
  match l !! i with
  | Some x => ret x
  | None => raise IndexError
  end.

(** [value.get(...)] on the decoded payload, kept as the dict it must be. *)
Definition as_dict {Σ} (value : json) : M Σ pydict :=
  match value with
  | JObj fields => ret fields
  | _ => raise AttributeError
  end.

(** The inner [try] of the listener, for one [pmessage].  The channel
    name is read as [plain_text]: its bytes are its characters, and
    [int()] on its field is [py_int]. *)
Definition on_pmessage (message : pubsub_message) : M St unit :=
  try_except
    (let channel := channel message in
     let data := data message in
     do field <- index (split_on ":" channel) 1 ;
     do session_id <- int_of field ;
     do loaded <- json_loads data ;
     do message_data <- as_dict loaded ;
     do _ <- _send_to_local_connections session_id message_data ;
     ret tt)
    (λ e, log_error "Error processing Redis message: {e}").

(** [_redis_listener], run on the items that [self.pubsub.listen()]
    yields before the task is cancelled. *)
Definition _redis_listener (stream : list stream_item) : M St unit :=
  try_except
    (do ps <- self pubsub ;
     match ps with
     | None => log_error "Redis pub/sub not initialized"
     | Some _ =>
         for_each stream (λ item,
           match item with
           | Broken => raise RedisError
           | Delivered message =>
               if String.eqb (mtype message) "pmessage"
               then on_pmessage message
               else ret tt
           end)
     end)
    (λ e, log_error "Redis listener error: {e}").

Definition get_session_info (session_id : Z) : M St pydict :=
  try_except
    (do connections <- call (hgetall session_id) ;
     do stored <- call (get_counter session_id) ;
     let connection_count := default 0 stored in
     do local <- self local_connections ;
     let local_connections := (map_to_list local).*1 in
     do me <- self server_id ;
     ret [("session_id"%string, JNum session_id);
          ("total_connections"%string, JNum (Z.of_nat (List.length connections)));
          ("connection_count"%string, JNum connection_count);
          ("local_connections"%string, JArr (JStr <$> local_connections));
          ("server_id"%string, JStr me);
          ("redis_connections"%string, JArr (JStr <$> connections.*1))])
    (λ e, log_error "Error getting session info: {e}" ;;; ret []).

(** [self._listener_task.cancel()] *)
Definition cancel (t : task_state) : task_state :=
  match t with
  | Running => CancelRequested
  | _ => t
  end.

(** [await self._listener_task]: a task whose cancellation was requested
    ends cancelled and the await raises [CancelledError]; the listener
    itself lets nothing else out. *)
Definition await_task : M St unit :=
  do task <- self _listener_task ;
  match task with
  | Some CancelRequested | Some Cancelled =>
      set_listener_task (Some Cancelled) ;;; raise CancelledError
  | Some Running | Some Finished =>
      set_listener_task (Some Finished)
  | None => ret tt
  end.

(** [await self.pubsub.close()] *)
Definition close_pubsub (p : pubsub_state) : M St unit :=
  lift (store_call ping) ;;;
  set_pubsub (Some (MkPubSub (patterns p) true)).

Definition cleanup : M St unit :=
  do task <- self _listener_task ;
  match task with
  | Some t =>
      if negb (done t) then
        set_listener_task (Some (cancel t)) ;;;
        try_except_cancelled await_task
      else ret tt
  | None => ret tt
  end ;;;
  do ps <- self pubsub ;
  match ps with
  | Some p =>
      try_except (close_pubsub p)
        (λ e, log_error "Error closing pub/sub: {e}")
  | None => ret tt
  end ;;;
  set_initialized false.

End RedisManager.

(** ** [__init__.py]: the process-wide manager *)

Module Package.
Import RedisManager.

(** The module global [ws_manager] and the world around it. *)
Abbreviation St := (option RedisWebSocketManager * World)%type.

Definition set_ws_manager (g : option RedisWebSocketManager) : M St unit :=
  modify (λ '(_, w), (g, w)).

(** [await ws_manager.<method>(...)] on the object that the global
    refers to. *)
Definition on_ws_manager {A} (method : M RedisManager.St A) : M St A :=
  λ '(g, w),
    match g with
    | Some s => let '(r, (s', w')) := method (s, w) in (r, (Some s', w'))
    | None => (Raise AttributeError, (None, w))
    end.

(** [client] tells whether [app.core.utils.cache.client], a module
    outside this code, is a client rather than [None]; [sid] is the
    value drawn for the new manager's [server_id]. *)
Definition initialize_websocket_manager (client : bool) (sid : string)
    : M St (option RedisWebSocketManager) :=
  try_except
    (if negb client then
       lift (logger (Warning
         "Redis client not available, WebSocket functionality will be limited")) ;;;
       ret None
     else
       set_ws_manager (Some (__init__ true sid)) ;;;
       on_ws_manager initialize ;;;
       gets fst)
    (λ e,
     lift (logger (Error "Failed to initialize WebSocket manager: {e}")) ;;;
     ret None).

Definition cleanup_websocket_manager : M St unit :=
  do g <- gets fst ;
  match g with
  | Some _ =>
      try_except (on_ws_manager cleanup)
        (λ e, lift (logger (Error "Error during WebSocket cleanup: {e}")))
  | None => ret tt
  end ;;;
  set_ws_manager None.

Definition get_websocket_manager : M St (option RedisWebSocketManager) :=
  gets fst.

End Package.

(** ** Closed forms used to state the results *)

(** Stated on [manager.py]. *)
Module ManagerSpec.
Import Manager.

(** The manager that a successful [connect] leaves. *)
Definition connected (ws : websocket) (c : string) (sid : Z)
    (uid : option Z) (s : WebSocketManager) : WebSocketManager :=
  MkManager (<[c := ws]> (active_connections s))
    (index_append sid c (session_connections s))
    (match uid with
     | Some u => if truthy uid then index_append u c (user_connections s)
                 else user_connections s
     | None => user_connections s
     end).

(** The manager that [disconnect] leaves. *)
Definition disconnected (c : string) (sid : Z) (uid : option Z)
    (s : WebSocketManager) : WebSocketManager :=
  MkManager (delete c (active_connections s))
    (index_remove sid c (session_connections s))
    (match uid with
     | Some u => if truthy uid then index_remove u c (user_connections s)
                 else user_connections s
     | None => user_connections s
     end).

Definition send_error : log_record :=
  Error "Error sending to {connection_id}: {e}".

(** The manager after the cleanup loop of [send_to_session]. *)
Definition removed (sid : Z) (s : WebSocketManager) (conns : list string)
    : WebSocketManager :=
  foldl (λ s c, disconnected c sid None s) s conns.

(** What every operation keeps true of the two secondary indexes. *)
Definition indexes_ok (s : WebSocketManager) : Prop :=
  no_empty_lists (session_connections s)
  ∧ no_empty_lists (user_connections s)
  ∧ user_connections s !! 0 = None.

End ManagerSpec.

(** The store calls to come all succeed. *)
Definition calm (w : World) : Prop := forallb negb (faults w) = true.

(** Stated on [redis_manager.py]. *)
Module RedisSpec.
Import RedisManager.

(** What the loop body of [_send_to_local_connections] does with one
    directory entry. *)
Inductive verdict : Type :=
| Skipped
| Written (ws : websocket)
| WriteFailed (ws : websocket)
| Stale
| Unreadable.

Definition judge (s : RedisWebSocketManager) (open : gset websocket)
    (entry : string * wire) : verdict :=
  match entry.2 with
  | WJson (JObj fields) =>
      if eq_str (dict_get "server_id" fields) (server_id s) then
        match local_connections s !! entry.1 with
        | Some ws => if decide (ws ∈ open) then Written ws else WriteFailed ws
        | None => Stale
        end
      else Skipped
  | _ => Unreadable
  end.

(** The socket call, the count, the log record and the removal that go
    with a verdict. *)
Definition write_of (message : pydict) (v : verdict) : option io_event :=
  match v with
  | Written ws => Some (Sent ws message)
  | WriteFailed ws => Some (SendFailed ws message)
  | _ => None
  end.

Definition sent_of (v : verdict) : bool :=
  match v with Written _ => true | _ => false end.

Definition log_of (v : verdict) : option log_record :=
  match v with
  | WriteFailed _ | Unreadable =>
      Some (Error "Error sending to connection {connection_id}: {e}")
  | Stale =>
      Some (Warning "Connection {connection_id} in Redis but not in local connections")
  | _ => None
  end.

Definition collects (v : verdict) : bool :=
  match v with
  | WriteFailed _ | Stale | Unreadable => true
  | _ => false
  end.

(** The id that the loop body appends to [connections_to_remove]. *)
Definition collected_id (s : RedisWebSocketManager) (open : gset websocket)
    (entry : string * wire) : option string :=
  if collects (judge s open entry) then Some entry.1 else None.

(** The manager once [disconnect] was called on each of [conns]. *)
Definition dropped (conns : list string) (s : RedisWebSocketManager)
    : RedisWebSocketManager :=
  MkManager (redis_client s)
    (foldl (λ l c, delete c l) (local_connections s) conns)
    (server_id s) (pubsub s) (_initialized s) (_listener_task s).

(** The session named by the reverse mapping of a connection. *)
Definition target (r : store) (connection_id : string) : option Z :=
  match reverse r !! connection_id with
  | Some (String a bytes) => py_int (String a bytes)
  | _ => None
  end.

(** What the store calls of [disconnect] do when none of them fails. *)
Definition purge (r : store) (connection_id : string) : store :=
  match target r connection_id with
  | Some session_id =>
      Store (delete (session_id, connection_id) (hashes r))
        (delete connection_id (reverse r))
        (<[session_id := default 0 (counters r !! session_id) - 1]> (counters r))
        (published r)
  | None => r
  end.

(** The session that the listener reads off a channel name. *)
Definition session_of_channel (channel : string) : option Z :=
  split_on ":" channel !! 1%nat ≫= py_int.

(** The call of the local-send path that a [pmessage] leads to, if any. *)
Definition dispatch (message : pubsub_message) : option (Z * pydict) :=
  match session_of_channel (channel message), data message with
  | Some session_id, WJson (JObj fields) => Some (session_id, fields)
  | _, _ => None
  end.

(** The state in which the listener leaves one delivered message. *)
Definition handled (σ : St) (message : pubsub_message) : St :=
  if String.eqb (mtype message) "pmessage" then
    match dispatch message with
    | Some (session_id, fields) =>
        (_send_to_local_connections session_id fields σ).2
    | None =>
        (σ.1, set_log (λ l, l ++ [Error "Error processing Redis message: {e}"]) σ.2)
    end
  else σ.

End RedisSpec.

(** ** Concrete runs *)

Module Scenario.
Import RedisManager RedisSpec.

(** The state a call leaves behind. *)
Definition exec {A} (m : M St A) (σ : St) : St := (m σ).2.

Definition ping_message : pydict := [("type"%string, JStr "ping")].

(** One peer socket, an empty store, and a schedule of store faults. *)
Definition world (schedule : list bool) : World :=
  MkWorld {[1%nat]} [] [] (Store ∅ ∅ ∅ []) schedule 0.

(** A [WebSocketManager] that accepted [c1] on session 42 for user 7,
    after which the peer went away. *)
Definition single_process : Manager.St :=
  Manager.run [Manager.Connect 1 "c1" 42 (Some 7); Manager.PeerClosed 1]
    (Manager.__init__, world []).

(** Process A after start-up and one accepted connection [c1] on
    session 42 for user 7; [schedule] covers the two round-trips of
    [initialize], the six of [connect], and whatever comes next. *)
Definition process_a (schedule : list bool) : St :=
  exec (connect 1 "c1" 42 (Some 7))
    (exec initialize (__init__ true "aaaaaaaa", world schedule)).

(** The metadata that process A stored for [c1]. *)
Definition c1_info : pydict :=
  [("server_id"%string, JStr "aaaaaaaa"); ("user_id"%string, JNum 7);
   ("connected_at"%string, JNum 0); ("status"%string, JStr "active")].

(** Process B, started against the store that process A wrote to, with
    no connection of its own. *)
Definition process_b : St :=
  exec initialize (__init__ true "bbbbbbbb", (process_a []).2).

(** Process A when its next store call, the ninth, is going to fail. *)
Definition process_a_cut : St := process_a (replicate 8 false ++ [true]).

(** Process A once [disconnect] lost its first round-trip: the local
    socket is forgotten, the directory still lists it. *)
Definition process_a_leaked : St := exec (disconnect "c1") process_a_cut.

(** Process A when the SET of the reverse mapping failed during
    [connect], after a plain [disconnect]. *)
Definition process_a_unmapped : St :=
  exec (disconnect "c1") (process_a [false; false; false; false; true]).

(** Process A with a single connection [c2], on session 2. *)
Definition process_a2 : St :=
  exec (connect 1 "c2" 2 None)
    (exec initialize (__init__ true "aaaaaaaa", world [])).

(** A message published on a channel that the pattern [session:*]
    matches and that has a third field. *)
Definition ghost_message : pubsub_message :=
  MkMessage "pmessage" "session:42:x" (WJson (JObj ping_message)).

End Scenario.

(** ** Further vocabulary *)

Module ManagerInvariant.
Import Manager.
(** Every id of [active_connections] is listed under some session. *)
Definition active_indexed (s : WebSocketManager) : Prop :=
  ∀ c, is_Some (active_connections s !! c) →
       ∃ sid conns, session_connections s !! sid = Some conns ∧ c ∈ conns.
End ManagerInvariant.

Module RedisForms.
Import RedisManager.

(** The manager once [connect] stored the socket under its id. *)
Definition with_connection (c : string) (ws : websocket)
    (s : RedisWebSocketManager) : RedisWebSocketManager :=
  MkManager (redis_client s) (<[c := ws]> (local_connections s))
    (server_id s) (pubsub s) (_initialized s) (_listener_task s).

(** What the store calls of [connect] write when none of them fails. *)
Definition registered (me c : string) (session_id : Z) (user_id : option Z)
    (t : Z) (r : store) : store :=
  Store (<[(session_id, c) := json_dumps (connection_info me user_id t)]>
           (hashes r))
    (<[c := py_str session_id]> (reverse r))
    (<[session_id := default 0 (counters r !! session_id) + 1]> (counters r))
    (published r).

End RedisForms.

Module MoreScenario.
Import RedisManager RedisSpec Scenario.

(** A message that carries no [type] key. *)
Definition untyped_message : pydict := [("event"%string, JStr "ping")].

(** Process A after start-up, before any connection. *)
Definition process_a_started : St :=
  exec initialize (__init__ true "aaaaaaaa", world []).

(** Process A constructed and never initialized. *)
Definition process_a_idle : St := (__init__ true "aaaaaaaa", world []).

(** Process A once the peer of [c1] went away. *)
Definition process_a_dead : St :=
  ((process_a []).1, set_open_sockets (λ o, o ∖ {[1%nat]}) (process_a []).2).

End MoreScenario.

(** * Results *)

(** Bring both sides of an equation between final states to the same
    shape. *)
Ltac norm_eq :=
  simpl; rewrite <- ?app_assoc; simpl;
  rewrite ?Nat.add_succ_r, ?Nat.add_succ_l, ?Nat.add_0_r, ?app_nil_r;
  reflexivity.

(** Run the monadic plumbing of a method of [RedisWebSocketManager]. *)
Ltac mrun :=
  cbv beta iota delta
    [bind ret raise gets modify try_except try_except_cancelled lift
     with_locals get_locals set_locals logger store_call
     RedisManager.call RedisManager.self RedisManager.set_local
     RedisManager.set_pubsub RedisManager.set_initialized
     RedisManager.set_listener_task RedisManager.int_of
     RedisManager.log_error RedisManager.log_warning];
  simpl.

(** ** The text helpers on sample inputs *)

Example py_int_plain : py_int "42" = Some 42.
Proof. reflexivity. Qed.

Example py_int_blanks_and_sign : py_int " -7 " = Some (-7).
Proof. reflexivity. Qed.

Example py_int_underscore : py_int "1_000" = Some 1000.
Proof. reflexivity. Qed.

Example py_int_rejects : py_int "" = None ∧ py_int "4 2" = None ∧ py_int "_1" = None.
Proof. by repeat split. Qed.

Example py_str_samples : py_str 42 = "42"%string ∧ py_str (-5) = "-5"%string.
Proof. by split. Qed.

Example split_on_channel :
  split_on ":" "session:8" = ["session"; "8"]%string.
Proof. reflexivity. Qed.

Example session_channel_read_back :
  RedisSpec.session_of_channel (RedisManager.session_channel 8) = Some 8.
Proof. reflexivity. Qed.

Example py_int_blanks :
  py_int (String "009" "42") = Some 42 ∧ py_int (String "013" "42") = Some 42
  ∧ py_int (String "028" "42") = None ∧ py_int (String "031" "42") = None.
Proof. by repeat split. Qed.

(** ** [manager.py] *)

Section ManagerFacts.
Import Manager ManagerSpec Scenario.

Lemma list_remove_first_notin c l : c ∉ l → list_remove_first c l = l.
Proof.
  induction l as [|a l IH]; simpl; [done|].
  intros Hn. case_decide as Hd.
  - subst. exfalso. apply Hn. left.
  - f_equal. apply IH. intros Hin. apply Hn. by right.
Qed.

Lemma index_append_no_empty k c idx :
  no_empty_lists idx → no_empty_lists (index_append k c idx).
Proof.
  intros H k' l. unfold index_append. rewrite lookup_insert.
  case_decide; [|by apply H].
  intros [= <-]. by destruct (default [] (idx !! k)).
Qed.

Lemma index_remove_no_empty k c idx :
  no_empty_lists idx → no_empty_lists (index_remove k c idx).
Proof.
  intros H k' l. unfold index_remove.
  destruct (idx !! k) as [conns|] eqn:E; [|by apply H].
  destruct (if decide (c ∈ conns) then _ else _) as [|x xs] eqn:E2.
  - rewrite lookup_delete. destruct (decide (k = k')); [done|by apply H].
  - rewrite lookup_insert. destruct (decide (k = k')); [|by apply H].
    by intros [= <-].
Qed.

Lemma index_remove_view k c idx :
  default [] (index_remove k c idx !! k)
  = list_remove_first c (default [] (idx !! k)).
Proof.
  unfold index_remove. destruct (idx !! k) as [conns|] eqn:E; simpl.
  - assert (Hr : (if decide (c ∈ conns) then list_remove_first c conns else conns)
                 = list_remove_first c conns).
    { case_decide; [done|]. by rewrite list_remove_first_notin. }
    rewrite Hr. destruct (list_remove_first c conns) eqn:E2.
    + by rewrite lookup_delete_eq.
    + by rewrite lookup_insert_eq.
  - by rewrite E.
Qed.

Lemma index_remove_other k k' c idx :
  k ≠ k' → index_remove k c idx !! k' = idx !! k'.
Proof.
  intros Hne. unfold index_remove.
  destruct (idx !! k) as [conns|]; [|done].
  destruct (if decide (c ∈ conns) then _ else _).
  - by rewrite lookup_delete_ne.
  - by rewrite lookup_insert_ne.
Qed.


Lemma connect_eval ws c sid uid s w :
  connect ws c sid uid (s, w) =
  if decide (ws ∈ open_sockets w)
  then (Ok tt, (connected ws c sid uid s, set_io_trace (λ t, t ++ [Accepted ws]) w))
  else (Raise WebSocketError, (s, w)).
Proof.
  unfold connect, bind, lift, accept. 
  destruct (decide (ws ∈ open_sockets w)); [|done].
  unfold connected. simpl. destruct uid as [u|]; [|done].
  destruct (truthy (Some u)); done.
Qed.


Lemma disconnect_eval c sid uid s w :
  disconnect c sid uid (s, w) = (Ok tt, (disconnected c sid uid s, w)).
Proof.
  unfold disconnect, bind, disconnected. simpl. destruct uid as [u|]; [|done].
  destruct (truthy (Some u)); done.
Qed.



Lemma session_step_eval message c loc s w :
  session_step message c (loc, (s, w)) =
  (Ok tt,
   match active_connections s !! c with
   | None => (loc, (s, w))
   | Some ws =>
       if decide (ws ∈ open_sockets w) then
         match dict_get "type" message with
         | Some _ =>
             (incr_sent loc, (s, set_io_trace (λ t, t ++ [Sent ws message]) w))
         | None =>
             (mark_for_removal c (incr_sent loc),
              (s, set_log (λ l, l ++ [send_error])
                    (set_io_trace (λ t, t ++ [Sent ws message]) w)))
         end
       else
         (mark_for_removal c loc,
          (s, set_log (λ l, l ++ [send_error])
                (set_io_trace (λ t, t ++ [SendFailed ws message]) w)))
   end).
Proof.
  unfold session_step, bind, lift, gets. simpl.
  destruct (active_connections s !! c) as [ws|]; [|done].
  unfold try_except, bind, lift, send_json, set_locals, modify, message_type.
  destruct (decide (ws ∈ open_sockets w)); simpl; [|done].
  destruct (dict_get "type" message); done.
Qed.

Lemma session_pass_eval message conns : ∀ loc s w,
  session_pass conns message (loc, (s, w)) =
  let active := active_connections s in
  let open := open_sockets w in
  let marked := filter (λ c, collected active open message c) conns in
  let writes := omap (write_attempt active open message) conns in
  (Ok tt,
   (MkLocals (connections_to_remove loc ++ marked)
      (sent_count loc + List.length (List.filter is_sent writes)),
    (s, MkWorld open (io_trace w ++ writes)
          (log w ++ ((λ _, send_error) <$> marked))
          (redis w) (faults w) (now w)))).
Proof.
  induction conns as [|c conns IH]; intros loc s w.
  - simpl. destruct loc, w; simpl. unfold ret.
    by rewrite !app_nil_r, Nat.add_0_r.
  - unfold session_pass in *. simpl for_each. unfold bind at 1.
    rewrite session_step_eval. cbv zeta.
    assert (Hc := eq_refl (collected (active_connections s) (open_sockets w) message c)).
    assert (Hw := eq_refl (write_attempt (active_connections s) (open_sockets w) message c)).
    unfold collected at 2 in Hc. unfold write_attempt at 2 in Hw.
    simpl omap. 
    destruct (active_connections s !! c) as [ws|].
    2:{ rewrite IH. cbv zeta. rewrite filter_cons_False by (rewrite Hc; auto).
        by rewrite Hw. }
    destruct (decide (ws ∈ open_sockets w)) as [Ho|Ho].
    + rewrite (bool_decide_eq_false_2 (ws ∉ open_sockets w)) in Hc by auto.
      destruct (dict_get "type" message) eqn:Et.
      * rewrite bool_decide_eq_false_2 in Hc by done.
        rewrite IH. cbv zeta. rewrite filter_cons_False by (rewrite Hc; auto).
        rewrite Hw. destruct loc; simpl.
        norm_eq.
      * rewrite bool_decide_eq_true_2 in Hc by done.
        rewrite IH. cbv zeta. rewrite filter_cons_True by (rewrite Hc; done).
        rewrite Hw. destruct loc; simpl.
        norm_eq.
    + rewrite (bool_decide_eq_true_2 (ws ∉ open_sockets w)) in Hc by auto.
      rewrite IH. cbv zeta. rewrite filter_cons_True by (rewrite Hc; done).
      rewrite Hw. destruct loc; simpl.
      norm_eq.
Qed.


Lemma user_step_eval message c loc s w :
  ∃ loc' w', user_step message c (loc, (s, w)) = (Ok tt, (loc', (s, w'))).
Proof.
  unfold user_step, bind, lift, gets. simpl.
  destruct (active_connections s !! c) as [ws|]; [|by eexists _, _].
  unfold try_except, bind, lift, send_json, set_locals, modify.
  destruct (decide (ws ∈ open_sockets w)); simpl; by eexists _, _.
Qed.

Lemma user_pass_self message conns : ∀ loc s w,
  ∃ loc' w', user_pass conns message (loc, (s, w)) = (Ok tt, (loc', (s, w'))).
Proof.
  induction conns as [|c conns IH]; intros loc s w; [by eexists _, _|].
  unfold user_pass in *. simpl for_each. unfold bind at 1.
  destruct (user_step_eval message c loc s w) as (loc1 & w1 & ->).
  apply IH.
Qed.


Lemma remove_loop_eval sid conns : ∀ (loc : send_locals) s w,
  for_each conns (λ c, lift (disconnect c sid None)) (loc, (s, w))
  = (Ok tt, (loc, (removed sid s conns, w))).
Proof.
  induction conns as [|c conns IH]; intros loc s w; [done|].
  simpl for_each. unfold bind at 1, lift at 1.
  rewrite disconnect_eval. by rewrite IH.
Qed.

Lemma removed_active sid conns : ∀ s,
  active_connections (removed sid s conns)
  = foldl (λ a c, delete c a) (active_connections s) conns.
Proof. induction conns as [|c conns IH]; intros s; [done|]. simpl. by rewrite IH. Qed.

Lemma removed_users sid conns : ∀ s,
  user_connections (removed sid s conns) = user_connections s.
Proof. induction conns as [|c conns IH]; intros s; [done|]. simpl. by rewrite IH. Qed.

Lemma removed_sessions sid conns : ∀ s,
  session_connections (removed sid s conns)
  = foldl (λ i c, index_remove sid c i) (session_connections s) conns.
Proof. induction conns as [|c conns IH]; intros s; [done|]. simpl. by rewrite IH. Qed.

Lemma foldl_delete_lookup (c : string) conns : ∀ a : gmap string websocket,
  c ∈ conns → foldl (λ a c, delete c a) a conns !! c = None.
Proof.
  assert (Hkeep : ∀ conns (a : gmap string websocket),
            a !! c = None → foldl (λ a c, delete c a) a conns !! c = None).
  { clear. induction conns as [|x conns IH]; intros a Ha; [done|].
    simpl. apply IH. rewrite lookup_delete. by case_decide. }
  induction conns as [|x conns IH]; intros a Hin.
  - by apply elem_of_nil in Hin.
  - simpl. apply elem_of_cons in Hin as [->|Hin].
    + apply Hkeep. apply lookup_delete_eq.
    + by apply IH.
Qed.

Lemma foldl_index_remove_view sid conns : ∀ i : gmap Z (list string),
  default [] (foldl (λ i c, index_remove sid c i) i conns !! sid)
  = foldl (λ l c, list_remove_first c l) (default [] (i !! sid)) conns.
Proof.
  induction conns as [|c conns IH]; intros i; [done|].
  simpl. by rewrite IH, index_remove_view.
Qed.

Lemma foldl_index_remove_other sid k conns : ∀ i : gmap Z (list string),
  sid ≠ k → foldl (λ i c, index_remove sid c i) i conns !! k = i !! k.
Proof.
  induction conns as [|c conns IH]; intros i Hne; [done|].
  simpl. rewrite IH by done. by apply index_remove_other.
Qed.

Lemma foldl_index_remove_no_empty sid conns : ∀ i : gmap Z (list string),
  no_empty_lists i → no_empty_lists (foldl (λ i c, index_remove sid c i) i conns).
Proof.
  induction conns as [|c conns IH]; intros i Hi; [done|].
  simpl. apply IH. by apply index_remove_no_empty.
Qed.

Lemma remove_first_skip (a : string) rm : ∀ l,
  a ∉ rm →
  foldl (λ l c, list_remove_first c l) (a :: l) rm
  = a :: foldl (λ l c, list_remove_first c l) l rm.
Proof.
  induction rm as [|c rm IH]; intros l Hn; [done|].
  simpl. apply not_elem_of_cons in Hn as [Hne Hn].
  rewrite decide_False by done. by apply IH.
Qed.

(** Removing, one first occurrence at a time, the ids that a pass
    collected leaves exactly the ids it did not collect. *)
Lemma remove_collected (P : string → bool) (l : list string) :
  foldl (λ l c, list_remove_first c l) l (filter (λ c, P c) l)
  = filter (λ c, ¬ P c) l.
Proof.
  induction l as [|a l IH]; [done|].
  destruct (P a) eqn:Ea.
  - rewrite filter_cons_True by (by apply Is_true_true).
    rewrite (filter_cons_False (λ c, ¬ P c)) by (rewrite Ea; simpl; tauto).
    simpl. rewrite decide_True by done. apply IH.
  - rewrite filter_cons_False by (by apply Is_true_false).
    rewrite (filter_cons_True (λ c, ¬ P c)) by (by apply Is_true_false).
    rewrite remove_first_skip; [by rewrite IH|].
    intros Hin. apply list_elem_of_filter in Hin as [Hp _].
    by apply Is_true_true in Hp; rewrite Ea in Hp.
Qed.

Lemma send_to_session_eval sid message s w conns :
  session_connections s !! sid = Some conns →
  send_to_session sid message (s, w) =
  let active := active_connections s in
  let open := open_sockets w in
  let marked := filter (λ c, collected active open message c) conns in
  let writes := omap (write_attempt active open message) conns in
  (Ok (List.length (List.filter is_sent writes)),
   (removed sid s marked,
    MkWorld open (io_trace w ++ writes)
      (log w ++ ((λ _, send_error) <$> marked))
      (redis w) (faults w) (now w))).
Proof.
  intros Hs. unfold send_to_session, bind at 1, gets at 1. simpl. rewrite Hs.
  unfold with_locals, bind at 1. rewrite session_pass_eval. cbv zeta.
  unfold bind at 1, get_locals at 1, gets at 1. simpl.
  unfold bind at 1. rewrite remove_loop_eval. done.
Qed.

Lemma send_to_session_absent sid message s w :
  session_connections s !! sid = None →
  send_to_session sid message (s, w) =
  (Ok 0%nat,
   (s, set_log (λ l, l ++ [Warning "No active connections for session {session_id}"]) w)).
Proof.
  intros Hs. unfold send_to_session, bind at 1, gets at 1. simpl. by rewrite Hs.
Qed.


Lemma send_to_user_absent uid message s w :
  user_connections s !! uid = None →
  send_to_user uid message (s, w) =
  (Ok 0%nat,
   (s, set_log (λ l, l ++ [Warning "No active connections for user {user_id}"]) w)).
Proof.
  intros Hs. unfold send_to_user, bind at 1, gets at 1. simpl. by rewrite Hs.
Qed.

Lemma send_to_user_self uid message s w :
  (send_to_user uid message (s, w)).2.1 = s.
Proof.
  unfold send_to_user, bind at 1, gets at 1. simpl.
  destruct (user_connections s !! uid) as [conns|]; [|done].
  unfold with_locals, bind at 1.
  destruct (user_pass_self message conns (MkLocals [] 0) s w) as (loc & w' & ->).
  unfold bind at 1, get_locals at 1, gets at 1. simpl.
  unfold bind at 1.
  assert (Hnop : ∀ (l : list string) (σ : send_locals * St),
            for_each l (λ _, ret tt) σ = (Ok tt, σ)).
  { clear. induction l as [|x l IH]; intros σ; [done|].
    simpl. unfold bind, ret. simpl. apply IH. }
  by rewrite Hnop.
Qed.


Lemma truthy_nonzero u : truthy (Some u) = true → u ≠ 0.
Proof. simpl. intros H ->. done. Qed.

Lemma step_indexes_ok σ o : indexes_ok σ.1 → indexes_ok (step σ o).1.
Proof.
  destruct σ as [s w]. simpl. intros Hok.
  pose proof Hok as (Hs & Hu & H0). destruct o; simpl; try exact Hok.
  - rewrite connect_eval. destruct (decide (ws ∈ open_sockets w)); [|exact Hok].
    unfold indexes_ok, connected; simpl. split; [by apply index_append_no_empty|].
    destruct user_id as [u|]; [|done].
    destruct (truthy (Some u)) eqn:Et; [|done].
    split; [by apply index_append_no_empty|].
    unfold index_append. rewrite lookup_insert_ne; [done|].
    by apply truthy_nonzero.
  - rewrite disconnect_eval. unfold indexes_ok, disconnected; simpl.
    split; [by apply index_remove_no_empty|].
    destruct user_id as [u|]; [|done].
    destruct (truthy (Some u)) eqn:Et; [|done].
    split; [by apply index_remove_no_empty|].
    rewrite index_remove_other; [done|]. by apply truthy_nonzero.
  - destruct (session_connections s !! session_id) as [conns|] eqn:E.
    + rewrite (send_to_session_eval _ _ _ _ conns) by done.
      unfold indexes_ok; simpl. rewrite removed_sessions, removed_users.
      split; [by apply foldl_index_remove_no_empty|done].
    + by rewrite send_to_session_absent.
  - by rewrite send_to_user_self.
Qed.

Lemma run_indexes_ok ops : ∀ σ, indexes_ok σ.1 → indexes_ok (run ops σ).1.
Proof.
  induction ops as [|o ops IH]; intros σ H; [done|].
  simpl. apply IH. by apply step_indexes_ok.
Qed.

Lemma init_indexes_ok : indexes_ok __init__.
Proof. by repeat split. Qed.

(** Claim C6.  Whatever sequence of [connect], [disconnect],
    [send_to_session] and [send_to_user] calls a fresh manager goes
    through, with peers leaving and returning in between, neither
    [session_connections] nor [user_connections] binds a key to the
    empty list: an index entry whose list empties is deleted by the
    operation that empties it. *)
Theorem no_empty_index_lists (w0 : World) (ops : list op) :
  let s := (run ops (__init__, w0)).1 in
  no_empty_lists (session_connections s)
  ∧ no_empty_lists (user_connections s).
Proof.
  destruct (run_indexes_ok ops (__init__, w0) init_indexes_ok) as (Hs & Hu & _).
  by split.
Qed.

(** Claim C10.  In every state a manager can reach, [user_id = 0] is
    handled as no user at all: [connect] and [disconnect] with user 0
    behave as with [None] and leave [user_connections] as it was, no key
    0 is ever in that index, and [send_to_user(0, m)] returns 0 without
    touching a socket. *)
Theorem user_id_zero_is_no_user (w0 : World) (ops : list op) :
  let σ := run ops (__init__, w0) in
  (∀ ws c sid,
     connect ws c sid (Some 0) σ = connect ws c sid None σ
     ∧ user_connections (connect ws c sid (Some 0) σ).2.1
       = user_connections σ.1)
  ∧ (∀ c sid,
       disconnect c sid (Some 0) σ = disconnect c sid None σ
       ∧ user_connections (disconnect c sid (Some 0) σ).2.1
         = user_connections σ.1)
  ∧ user_connections σ.1 !! 0 = None
  ∧ (∀ message, ∃ σ',
       send_to_user 0 message σ = (Ok 0%nat, σ')
       ∧ io_trace σ'.2 = io_trace σ.2).
Proof.
  intros σ.
  destruct (run_indexes_ok ops (__init__, w0) init_indexes_ok) as (_ & _ & H0).
  fold σ in H0. destruct σ as [s w]. simpl in H0.
  split; [|split; [|split]].
  - intros ws c sid. rewrite !connect_eval.
    by destruct (decide (ws ∈ open_sockets w)).
  - intros c sid. by rewrite !disconnect_eval.
  - done.
  - intros message. rewrite send_to_user_absent by done. by eexists.
Qed.

(** Claim C5, amended.  For a session indexed with the ids [conns],
    [send_to_session] attempts exactly one write per id of [conns] that is
    in [active_connections], returns the number of writes that succeeded,
    changes none of the three indexes during the pass, and after the pass
    every id whose write raised is gone from [active_connections] and from
    the session's list, while [user_connections] is left as it was. *)
Theorem send_to_session_delivery sid message s w conns :
  session_connections s !! sid = Some conns →
  let active := active_connections s in
  let open := open_sockets w in
  let writes := omap (write_attempt active open message) conns in
  ∃ n s' w',
    send_to_session sid message (s, w) = (Ok n, (s', w'))
    ∧ io_trace w' = io_trace w ++ writes
    ∧ n = List.length (List.filter is_sent writes)
    ∧ (∀ loc, ∃ loc' w1,
         session_pass conns message (loc, (s, w)) = (Ok tt, (loc', (s, w1))))
    ∧ (∀ c, c ∈ conns → write_raises active open c = true →
         active_connections s' !! c = None
         ∧ c ∉ default [] (session_connections s' !! sid))
    ∧ user_connections s' = user_connections s.
Proof.
  intros Hs active open writes.
  rewrite (send_to_session_eval _ _ _ _ conns) by done. cbv zeta.
  eexists _, _, _. split; [reflexivity|]. simpl.
  split; [done|]. split; [done|]. split; [|split].
  - intros loc. rewrite session_pass_eval. by eexists _, _.
  - intros c Hin Hr.
    assert (Hc : collected active open message c).
    { apply Is_true_true. unfold collected, write_raises in *.
      destruct (active !! c); [|done]. by rewrite Hr. }
    split.
    + rewrite removed_active. apply foldl_delete_lookup.
      by apply list_elem_of_filter.
    + rewrite removed_sessions, foldl_index_remove_view, Hs. simpl.
      rewrite (remove_collected (collected active open message)).
      intros Hin'. apply list_elem_of_filter in Hin' as [Hn _]. by apply Hn.
  - apply removed_users.
Qed.


(** The theorem above on the run [single_process]. *)
Lemma send_to_session_delivery_witness :
  session_connections single_process.1 !! 42 = Some ["c1"%string]
  ∧ ∃ n σ', send_to_session 42 ping_message single_process = (Ok n, σ')
            ∧ io_trace σ'.2 = io_trace single_process.2 ++ [SendFailed 1 ping_message]
            ∧ n = 0%nat.
Proof.
  split; [by vm_compute|].
  destruct (send_to_session_delivery 42 ping_message single_process.1 single_process.2
              ["c1"%string] ltac:(by vm_compute))
    as (n & s' & w' & He & Ht & Hn & _).
  exists n, (s', w'). split; [exact He|]. split; [exact Ht|exact Hn].
Defined.

(** Against claim C5 as stated: the write to [c1] raised, [c1] left
    [active_connections] and the session index, and user 7 still lists
    it. *)
Lemma send_to_session_leaves_user_index :
  ∃ σ', send_to_session 42 ping_message single_process = (Ok 0%nat, σ')
    ∧ io_trace σ'.2 = [Accepted 1; SendFailed 1 ping_message]
    ∧ active_connections σ'.1 !! "c1"%string = None
    ∧ session_connections σ'.1 !! 42 = None
    ∧ user_connections σ'.1 !! 7 = Some ["c1"%string].
Proof. eexists. by vm_compute. Qed.

End ManagerFacts.

(** ** [redis_manager.py] *)

Section RedisFacts.
Import RedisManager RedisSpec.

Lemma calm_tail w : calm w → calm (set_faults tail w).
Proof.
  unfold calm. destruct w as [o t l r f n]; simpl.
  destruct f as [|b f]; simpl; [done|]. by intros [_ ?]%andb_prop.
Qed.

Lemma calm_hd w : calm w → hd false (faults w) = false.
Proof.
  unfold calm. destruct (faults w) as [|b f]; simpl; [done|].
  intros [Hb _]%andb_prop. by destruct b.
Qed.

Lemma store_call_calm {A} (command : store → A * store) w :
  calm w →
  store_call command w =
  (Ok (command (redis w)).1,
   set_redis (λ _, (command (redis w)).2) (set_faults tail w)).
Proof.
  intros Hc. unfold store_call. rewrite calm_hd by done.
  by destruct (command (redis w)).
Qed.

Lemma call_calm {A} (command : store → A * store) s w :
  redis_client s = true → calm w →
  call command (s, w) =
  (Ok (command (redis w)).1,
   (s, set_redis (λ _, (command (redis w)).2) (set_faults tail w))).
Proof.
  intros Hc Hw. unfold call, bind, self, gets, lift. simpl. rewrite Hc.
  by rewrite store_call_calm.
Qed.

Lemma local_step_eval message entry loc s w :
  local_step message entry (loc, (s, w)) =
  (Ok tt,
   match judge s (open_sockets w) entry with
   | Skipped => (loc, (s, w))
   | Written ws =>
       (incr_sent loc, (s, set_io_trace (λ t, t ++ [Sent ws message]) w))
   | WriteFailed ws =>
       (mark_for_removal entry.1 loc,
        (s, set_log (λ l, l ++ [Error "Error sending to connection {connection_id}: {e}"])
              (set_io_trace (λ t, t ++ [SendFailed ws message]) w)))
   | Stale =>
       (mark_for_removal entry.1 loc,
        (s, set_log (λ l, l ++ [Warning "Connection {connection_id} in Redis but not in local connections"]) w))
   | Unreadable =>
       (mark_for_removal entry.1 loc,
        (s, set_log (λ l, l ++ [Error "Error sending to connection {connection_id}: {e}"]) w))
   end).
Proof.
  destruct entry as [c v]. unfold local_step, judge. simpl.
  unfold try_except, bind at 1.
  destruct v as [j|raw]; [|done].
  destruct j; try done. simpl.
  unfold bind at 1. simpl. unfold bind at 1, lift at 1, self at 1, gets at 1. simpl.
  destruct (eq_str (dict_get "server_id" fields) (server_id s)); [|done].
  unfold bind at 1, lift at 1, self at 1, gets at 1. simpl.
  destruct (local_connections s !! c) as [ws|]; [|done].
  unfold bind, lift, send_json. destruct (decide (ws ∈ open_sockets w)); done.
Qed.

Lemma local_pass_eval message entries : ∀ loc s w,
  for_each entries (local_step message) (loc, (s, w)) =
  let verdicts := judge s (open_sockets w) <$> entries in
  (Ok tt,
   (MkLocals
      (connections_to_remove loc ++ omap (collected_id s (open_sockets w)) entries)
      (sent_count loc + List.length (List.filter sent_of verdicts)),
    (s, MkWorld (open_sockets w)
          (io_trace w ++ omap (write_of message) verdicts)
          (log w ++ omap log_of verdicts)
          (redis w) (faults w) (now w)))).
Proof.
  induction entries as [|e entries IH]; intros loc s w.
  - simpl. destruct loc, w; simpl. unfold ret.
    by rewrite !app_nil_r, Nat.add_0_r.
  - simpl for_each. unfold bind at 1. rewrite local_step_eval.
    cbv zeta. rewrite fmap_cons. simpl omap.
    assert (Hc : collected_id s (open_sockets w) e
                 = if collects (judge s (open_sockets w) e) then Some e.1 else None)
      by done.
    rewrite Hc. clear Hc.
    destruct (judge s (open_sockets w) e); rewrite IH; destruct loc; norm_eq.
Qed.


Lemma disconnect_total c s w :
  ∃ w', disconnect c (s, w) = (Ok tt, (dropped [c] s, w'))
        ∧ open_sockets w' = open_sockets w
        ∧ io_trace w' = io_trace w.
Proof.
  destruct s as [cl loc me ps ini task], w as [o t l r f n].
  unfold disconnect. mrun.
  destruct ini; simpl; [|by eexists].
  destruct cl; simpl; [|by eexists].
  destruct (hd false f); simpl; [by eexists|].
  destruct (reverse r !! c) as [[|a bytes]|]; simpl; try by eexists.
  destruct (py_int (String a bytes)) as [sid|]; simpl; [|by eexists].
  destruct (hd false (tail f)); simpl; [by eexists|].
  destruct (hd false (tail (tail f))); simpl; [by eexists|].
  destruct (hd false (tail (tail (tail f)))); simpl; [by eexists|].
  destruct (hd false (tail (tail (tail (tail f))))); simpl; by eexists.
Qed.


Lemma quiet_hd (f : list bool) : forallb negb f = true → hd false f = false.
Proof. destruct f as [|[] f]; simpl; done. Qed.

Lemma quiet_tail (f : list bool) :
  forallb negb f = true → forallb negb (tail f) = true.
Proof. destruct f as [|[] f]; simpl; done. Qed.

Lemma disconnect_calm c s w :
  _initialized s = true → redis_client s = true → calm w →
  ∃ w', disconnect c (s, w) = (Ok tt, (dropped [c] s, w'))
        ∧ redis w' = purge (redis w) c
        ∧ calm w'
        ∧ open_sockets w' = open_sockets w
        ∧ io_trace w' = io_trace w.
Proof.
  destruct s as [cl loc me ps ini task], w as [o t l r f n].
  unfold calm. simpl. intros -> -> Hf.
  pose proof (quiet_tail _ Hf) as Hf1. pose proof (quiet_tail _ Hf1) as Hf2.
  pose proof (quiet_tail _ Hf2) as Hf3. pose proof (quiet_tail _ Hf3) as Hf4.
  pose proof (quiet_tail _ Hf4) as Hf5.
  unfold disconnect. mrun. unfold purge, target. simpl.
  rewrite (quiet_hd f) by done.
  destruct (reverse r !! c) as [[|a bytes]|]; simpl;
    try (eexists; split; [reflexivity|]; simpl; by destruct r).
  destruct (py_int (String a bytes)) as [sid|]; simpl;
    [|eexists; split; [reflexivity|]; simpl; by destruct r].
  repeat (rewrite quiet_hd by done; simpl).
  eexists; split; [reflexivity|]. simpl. done.
Qed.

(** Claim C8.  When the store holds no reverse mapping
    [connection:{id}:session] for a connection id, [disconnect] returns
    without raising and leaves the store as it was: no hash field is
    deleted, no counter is decremented.  This holds whether or not the
    manager is initialized and whether or not the store call fails. *)
Theorem disconnect_unknown_is_noop c s w :
  reverse (redis w) !! c = None →
  ∃ s' w', disconnect c (s, w) = (Ok tt, (s', w'))
           ∧ redis w' = redis w.
Proof.
  destruct s as [cl loc me ps ini task], w as [o t l r f n]. simpl.
  intros Hr. unfold disconnect. mrun.
  destruct ini; simpl; [|by eexists _, _].
  destruct cl; simpl; [|by eexists _, _].
  destruct (hd false f); simpl; [by eexists _, _|].
  rewrite Hr. eexists _, _. split; [reflexivity|]. simpl. by destruct r.
Qed.

Lemma remove_pass_total conns : ∀ s w,
  ∃ w', remove_pass conns (s, w) = (Ok tt, (dropped conns s, w'))
        ∧ open_sockets w' = open_sockets w
        ∧ io_trace w' = io_trace w.
Proof.
  induction conns as [|c conns IH]; intros s w.
  - exists w. by destruct s.
  - unfold remove_pass in *. simpl for_each. unfold bind at 1.
    destruct (disconnect_total c s w) as (w1 & -> & Ho & Ht).
    destruct (IH (dropped [c] s) w1) as (w2 & -> & Ho2 & Ht2).
    exists w2. split; [done|]. by rewrite Ho2, Ht2.
Qed.

Lemma remove_pass_calm conns : ∀ s w,
  _initialized s = true → redis_client s = true → calm w →
  ∃ w', remove_pass conns (s, w) = (Ok tt, (dropped conns s, w'))
        ∧ redis w' = foldl purge (redis w) conns
        ∧ calm w'
        ∧ open_sockets w' = open_sockets w
        ∧ io_trace w' = io_trace w.
Proof.
  induction conns as [|c conns IH]; intros s w Hi Hc Hw.
  - exists w. by destruct s.
  - unfold remove_pass in *. simpl for_each. unfold bind at 1.
    destruct (disconnect_calm c s w Hi Hc Hw) as (w1 & -> & Hr & Hw1 & Ho & Ht).
    destruct (IH (dropped [c] s) w1 Hi Hc Hw1) as (w2 & -> & Hr2 & Hw2 & Ho2 & Ht2).
    exists w2. split; [done|]. simpl. by rewrite Hr2, Hr, Ho2, Ht2.
Qed.


Lemma local_send_total sid message s w :
  ∃ n s' w', _send_to_local_connections sid message (s, w) = (Ok n, (s', w')).
Proof.
  unfold _send_to_local_connections, try_except, bind at 1.
  unfold call, bind at 1, self at 1, gets at 1. simpl.
  destruct (redis_client s); [|by eexists _, _, _].
  unfold lift at 1, store_call. destruct (hd false (faults w)); [by eexists _, _, _|].
  simpl. unfold with_locals, bind at 1. rewrite local_pass_eval. cbv zeta.
  unfold bind at 1, get_locals at 1, gets at 1. simpl.
  unfold bind at 1, lift at 1.
  match goal with
  | |- context [remove_pass ?l (?s0, ?w0)] =>
      destruct (remove_pass_total l s0 w0) as (w2 & -> & _ & _)
  end.
  by eexists _, _, _.
Qed.

Lemma local_send_calm sid message s w :
  _initialized s = true → redis_client s = true → calm w →
  let entries := (hgetall sid (redis w)).1 in
  let verdicts := judge s (open_sockets w) <$> entries in
  let marked := omap (collected_id s (open_sockets w)) entries in
  ∃ w', _send_to_local_connections sid message (s, w)
        = (Ok (List.length (List.filter sent_of verdicts)), (dropped marked s, w'))
        ∧ redis w' = foldl purge (redis w) marked
        ∧ calm w'
        ∧ open_sockets w' = open_sockets w
        ∧ io_trace w' = io_trace w ++ omap (write_of message) verdicts.
Proof.
  intros Hi Hc Hw entries verdicts marked.
  unfold _send_to_local_connections, try_except, bind at 1.
  rewrite call_calm by done. simpl.
  unfold with_locals, bind at 1. rewrite local_pass_eval. cbv zeta.
  unfold bind at 1, get_locals at 1, gets at 1. simpl.
  unfold bind at 1, lift at 1.
  match goal with
  | |- context [remove_pass ?l (?s0, ?w0)] =>
      destruct (remove_pass_calm l s0 w0 Hi Hc) as (w2 & -> & Hr & Hw2 & Ho & Ht)
  end.
  { unfold calm in *. simpl. by apply quiet_tail. }
  simpl in *. exists w2. done.
Qed.

Lemma target_purge_other r c c' : c' ≠ c → target (purge r c') c = target r c.
Proof.
  intros Hne. unfold purge. destruct (target r c') as [k|]; [|done].
  unfold target. simpl. by rewrite lookup_delete_ne.
Qed.

Lemma purge_hashes_other r c' k c :
  c' ≠ c → hashes (purge r c') !! (k, c) = hashes r !! (k, c).
Proof.
  intros Hne. unfold purge. destruct (target r c') as [k'|]; [|done].
  simpl. rewrite lookup_delete_ne; [done|]. by intros [= _ ?].
Qed.

Lemma purge_reverse_other r c' c :
  c' ≠ c → reverse (purge r c') !! c = reverse r !! c.
Proof.
  intros Hne. unfold purge. destruct (target r c') as [k'|]; [|done].
  simpl. by rewrite lookup_delete_ne.
Qed.

Lemma purge_hashes_gone r c' key :
  hashes r !! key = None → hashes (purge r c') !! key = None.
Proof.
  intros Hn. unfold purge. destruct (target r c') as [k'|]; [|done].
  simpl. rewrite lookup_delete. by case_decide.
Qed.

Lemma purge_reverse_gone r c' c :
  reverse r !! c = None → reverse (purge r c') !! c = None.
Proof.
  intros Hn. unfold purge. destruct (target r c') as [k'|]; [|done].
  simpl. rewrite lookup_delete. by case_decide.
Qed.

Lemma purged_untouched conns k c : ∀ r,
  c ∉ conns →
  hashes (foldl purge r conns) !! (k, c) = hashes r !! (k, c)
  ∧ reverse (foldl purge r conns) !! c = reverse r !! c.
Proof.
  induction conns as [|c' conns IH]; intros r Hn; [done|].
  apply not_elem_of_cons in Hn as [Hne Hn]. simpl.
  destruct (IH (purge r c') Hn) as [-> ->].
  by rewrite purge_hashes_other, purge_reverse_other.
Qed.

Lemma purged_stays_gone conns key c : ∀ r,
  (hashes r !! key = None → hashes (foldl purge r conns) !! key = None)
  ∧ (reverse r !! c = None → reverse (foldl purge r conns) !! c = None).
Proof.
  induction conns as [|c' conns IH]; intros r; [done|].
  simpl. destruct (IH (purge r c')) as [Hh Hr]. split; intros Hn.
  - by apply Hh, purge_hashes_gone.
  - by apply Hr, purge_reverse_gone.
Qed.

Lemma purged_gone conns k c : ∀ r,
  c ∈ conns → target r c = Some k →
  hashes (foldl purge r conns) !! (k, c) = None
  ∧ reverse (foldl purge r conns) !! c = None.
Proof.
  induction conns as [|c' conns IH]; intros r Hin Ht.
  - by apply elem_of_nil in Hin.
  - simpl. destruct (decide (c' = c)) as [->|Hne].
    + destruct (purged_stays_gone conns (k, c) c (purge r c)) as [Hh Hr].
      split; [apply Hh|apply Hr]; unfold purge; rewrite Ht; simpl;
        apply lookup_delete_eq.
    + apply elem_of_cons in Hin as [->|Hin]; [done|].
      apply IH; [done|]. by rewrite target_purge_other.
Qed.

Lemma purge_counter r c k :
  default 0 (counters (purge r c) !! k)
  = default 0 (counters r !! k)
    - (if decide (target r c = Some k) then 1 else 0).
Proof.
  unfold purge. destruct (target r c) as [k'|] eqn:Et.
  - simpl. rewrite lookup_insert. destruct (decide (k' = k)) as [->|Hne].
    + by rewrite decide_True.
    + rewrite decide_False by congruence. lia.
  - rewrite decide_False by done. lia.
Qed.

Lemma filter_ext_elem {A} (P Q : A → Prop)
    `{∀ x, Decision (P x), ∀ x, Decision (Q x)} (l : list A) :
  (∀ x, x ∈ l → (P x ↔ Q x)) → filter P l = filter Q l.
Proof.
  induction l as [|a l IH]; intros Hpq; [done|].
  rewrite !filter_cons.
  assert (Ha : P a ↔ Q a) by (apply Hpq; left).
  rewrite IH by (intros x Hx; apply Hpq; by right).
  destruct (decide (P a)), (decide (Q a)); tauto.
Qed.

Lemma purged_counter conns k : ∀ r,
  NoDup conns →
  default 0 (counters (foldl purge r conns) !! k)
  = default 0 (counters r !! k)
    - Z.of_nat (List.length (filter (λ c, target r c = Some k) conns)).
Proof.
  induction conns as [|c conns IH]; intros r Hnd.
  - simpl. lia.
  - apply NoDup_cons in Hnd as [Hn Hnd]. simpl foldl.
    rewrite IH by done. rewrite purge_counter.
    assert (Hf : filter (λ c0, target (purge r c) c0 = Some k) conns
                 = filter (λ c0, target r c0 = Some k) conns).
    { apply filter_ext_elem. intros c0 Hin.
      rewrite target_purge_other; [done|]. intros ->. done. }
    rewrite Hf, filter_cons. destruct (decide (target r c = Some k)); simpl; lia.
Qed.


Lemma elem_of_hgetall sid r c v :
  (c, v) ∈ (hgetall sid r).1 ↔ hashes r !! (sid, c) = Some v.
Proof.
  unfold hgetall. simpl. rewrite list_elem_of_omap. split.
  - intros ([[k c'] v'] & Hin & Hf). apply elem_of_map_to_list in Hin.
    destruct (decide (k = sid)) as [->|]; [|done]. by injection Hf as -> ->.
  - intros Hl. exists ((sid, c), v). split; [by apply elem_of_map_to_list|].
    by rewrite decide_True.
Qed.

Lemma NoDup_hgetall sid r : NoDup (hgetall sid r).1.*1.
Proof.
  unfold hgetall. simpl.
  pose proof (NoDup_fst_map_to_list (hashes r)) as Hnd.
  induction (map_to_list (hashes r)) as [|[[k c] v] l IH]; simpl; [constructor|].
  simpl in Hnd. apply NoDup_cons in Hnd as [Hn Hnd].
  destruct (decide (k = sid)) as [->|]; [|by apply IH].
  simpl. apply NoDup_cons. split; [|by apply IH].
  intros Hin. apply Hn. apply list_elem_of_fmap in Hin as ([c' v'] & -> & Hin).
  apply list_elem_of_omap in Hin as ([[k2 c2] v2] & Hin & Hf).
  destruct (decide (k2 = sid)) as [->|]; [|done]. injection Hf as -> ->.
  apply list_elem_of_fmap. by exists ((sid, c'), v').
Qed.

Lemma elem_of_marked s open (entries : list (string * wire)) c :
  c ∈ omap (collected_id s open) entries
  ↔ ∃ v, (c, v) ∈ entries ∧ collects (judge s open (c, v)) = true.
Proof.
  rewrite list_elem_of_omap. unfold collected_id. split.
  - intros ([c' v] & Hin & Hf).
    destruct (collects (judge s open (c', v))) eqn:E; [|done].
    injection Hf as <-. by exists v.
  - intros (v & Hin & Hc). exists (c, v). by rewrite Hc.
Qed.

Lemma NoDup_marked s open (entries : list (string * wire)) :
  NoDup entries.*1 → NoDup (omap (collected_id s open) entries).
Proof.
  induction entries as [|[c v] l IH]; simpl; [constructor|].
  intros [Hn Hnd]%NoDup_cons. unfold collected_id at 1.
  destruct (collects (judge s open (c, v))); [|by apply IH].
  simpl. apply NoDup_cons. split; [|by apply IH].
  intros Hin. apply Hn. apply elem_of_marked in Hin as (v' & Hin & _).
  apply list_elem_of_fmap. by exists (c, v').
Qed.

(** Claim C4, amended.  On an initialized manager whose store calls
    succeed, take a directory entry [c] of the session that records this
    process as its owner, is absent from the local registry, and whose
    reverse mapping names this session.  Then [_send_to_local_connections]
    returns without raising; afterwards the hash field and the reverse
    mapping of [c] are gone; the session's counter went down by one for
    each removed id whose reverse mapping names the session, [c] among
    them; the entry is judged stale, so no socket call is made for it;
    and every entry recorded for another process is still in the hash,
    with its reverse mapping, as before. *)
Theorem stale_entries_are_purged sid message s w c fields :
  _initialized s = true → redis_client s = true → calm w →
  hashes (redis w) !! (sid, c) = Some (WJson (JObj fields)) →
  eq_str (dict_get "server_id" fields) (server_id s) = true →
  local_connections s !! c = None →
  target (redis w) c = Some sid →
  let entries := (hgetall sid (redis w)).1 in
  let verdicts := judge s (open_sockets w) <$> entries in
  let marked := omap (collected_id s (open_sockets w)) entries in
  ∃ n s' w',
    _send_to_local_connections sid message (s, w) = (Ok n, (s', w'))
    ∧ hashes (redis w') !! (sid, c) = None
    ∧ reverse (redis w') !! c = None
    ∧ c ∈ filter (λ c', target (redis w) c' = Some sid) marked
    ∧ default 0 (counters (redis w') !! sid)
      = default 0 (counters (redis w) !! sid)
        - Z.of_nat (List.length
            (filter (λ c', target (redis w) c' = Some sid) marked))
    ∧ judge s (open_sockets w) (c, WJson (JObj fields)) = Stale
    ∧ io_trace w' = io_trace w ++ omap (write_of message) verdicts
    ∧ (∀ c2 fields2,
         hashes (redis w) !! (sid, c2) = Some (WJson (JObj fields2)) →
         eq_str (dict_get "server_id" fields2) (server_id s) = false →
         hashes (redis w') !! (sid, c2) = Some (WJson (JObj fields2))
         ∧ reverse (redis w') !! c2 = reverse (redis w) !! c2).
Proof.
  intros Hi Hc Hw Hh Hown Hloc Ht entries verdicts marked.
  destruct (local_send_calm sid message s w Hi Hc Hw)
    as (w' & He & Hr & _ & _ & Hio).
  fold entries verdicts marked in He, Hr, Hio.
  assert (Hj : judge s (open_sockets w) (c, WJson (JObj fields)) = Stale).
  { unfold judge. simpl. by rewrite Hown, Hloc. }
  assert (Hm : c ∈ marked).
  { apply elem_of_marked. exists (WJson (JObj fields)).
    split; [by apply elem_of_hgetall|by rewrite Hj]. }
  eexists _, _, w'. split; [exact He|]. rewrite Hr.
  destruct (purged_gone marked sid c (redis w) Hm Ht) as [Hg1 Hg2].
  split; [done|]. split; [done|].
  split; [by apply list_elem_of_filter|].
  split; [apply purged_counter, NoDup_marked, NoDup_hgetall|].
  split; [done|]. split; [done|].
  intros c2 fields2 Hh2 Hother. rewrite <- Hh2. apply purged_untouched.
  intros Hin. apply elem_of_marked in Hin as (v2 & Hin & Hcol).
  apply elem_of_hgetall in Hin. rewrite Hh2 in Hin. injection Hin as <-.
  unfold judge in Hcol. simpl in Hcol. by rewrite Hother in Hcol.
Qed.


Lemma calm_after_call f w : calm w → calm (set_redis f (set_faults tail w)).
Proof. unfold calm. simpl. apply quiet_tail. Qed.

Lemma count_calm sid s w :
  redis_client s = true → calm w →
  get_session_connection_count sid (s, w)
  = (Ok (hlen sid (redis w)).1,
     (s, set_redis (λ _, redis w) (set_faults tail w))).
Proof.
  intros Hc Hw. unfold get_session_connection_count, try_except.
  by rewrite call_calm.
Qed.

(** Claim C2.  On an initialized manager whose store calls succeed,
    [send_to_session] returns without raising, and the number returned is
    the number of fields that the directory hash of the session holds
    when the call returns, which is its number at the call when the pass
    collected no id for removal; for a session without any directory
    entry the result is 0. *)
Theorem send_to_session_returns_directory_size sid message s w :
  _initialized s = true → redis_client s = true → calm w →
  ∃ n s' w',
    send_to_session sid message (s, w) = (Ok n, (s', w'))
    ∧ n = (hlen sid (redis w')).1
    ∧ (omap (collected_id s (open_sockets w)) (hgetall sid (redis w)).1 = [] →
       n = (hlen sid (redis w)).1)
    ∧ ((hlen sid (redis w)).1 = 0%nat → n = 0%nat).
Proof.
  intros Hi Hc Hw. unfold send_to_session, bind at 1, self at 1, gets at 1.
  simpl. rewrite Hi. simpl. unfold try_except, bind at 1, self at 1, gets at 1.
  simpl. unfold bind at 1. rewrite call_calm by done. simpl.
  unfold bind at 1.
  match goal with
  | |- context [_send_to_local_connections sid message (s, ?w0)] =>
      destruct (local_send_calm sid message s w0 Hi Hc (calm_after_call _ w Hw))
        as (w2 & -> & Hr & Hw2 & _ & _)
  end.
  unfold bind at 1. rewrite count_calm by done. unfold ret.
  eexists _, _, _. split; [reflexivity|]. simpl. split; [done|].
  split.
  { intros Hm. rewrite Hr. simpl. unfold hgetall in *. simpl in *.
    by rewrite Hm. }
  intros Hz. rewrite Hr. simpl.
  assert (He : (hgetall sid (redis w)).1 = []).
  { unfold hlen in Hz. simpl in Hz. by apply nil_length_inv. }
  unfold hgetall in *. simpl in *. rewrite He. simpl. by rewrite He.
Qed.

(** Claim C1, amended.  When the PUBLISH round-trip of
    [send_to_session] fails on an initialized manager, nothing propagates
    to the caller: the failure is logged, the call returns 0, and it
    stops there, with no socket written and the store and the local
    registry as they were. *)
Theorem publish_failure_aborts_send sid message s w rest :
  _initialized s = true → redis_client s = true → faults w = true :: rest →
  send_to_session sid message (s, w)
  = (Ok 0%nat,
     (s, MkWorld (open_sockets w) (io_trace w)
           (log w ++ [Error "Failed to send message to session {session_id}: {e}"])
           (redis w) rest (now w))).
Proof.
  destruct s as [cl loc me ps ini task], w as [o t l r f n]. simpl.
  intros -> -> ->. unfold send_to_session. by mrun.
Qed.

(** Claim C3, amended.  When the store calls succeed,
    [get_session_info] returns a record with exactly the keys
    [session_id], [total_connections], [connection_count],
    [local_connections], [server_id], [redis_connections], in which
    [redis_connections] lists, without repetition, the connection ids in
    the directory hash of the session, and [local_connections] lists,
    without repetition, every id of this process's local registry,
    whatever session it belongs to. *)
Theorem get_session_info_record sid s w :
  redis_client s = true → calm w →
  ∃ remote local w',
    get_session_info sid (s, w)
    = (Ok [("session_id"%string, JNum sid);
           ("total_connections"%string, JNum (Z.of_nat (List.length remote)));
           ("connection_count"%string,
            JNum (default 0 (counters (redis w) !! sid)));
           ("local_connections"%string, JArr (JStr <$> local));
           ("server_id"%string, JStr (server_id s));
           ("redis_connections"%string, JArr (JStr <$> remote))],
       (s, w'))
    ∧ NoDup remote
    ∧ (∀ c, c ∈ remote ↔ is_Some (hashes (redis w) !! (sid, c)))
    ∧ NoDup local
    ∧ (∀ c, c ∈ local ↔ is_Some (local_connections s !! c)).
Proof.
  intros Hc Hw.
  exists (hgetall sid (redis w)).1.*1, (map_to_list (local_connections s)).*1.
  unfold get_session_info, try_except, bind at 1. rewrite call_calm by done.
  simpl. unfold bind at 1.
  rewrite call_calm by (try done; by apply calm_after_call). simpl.
  unfold bind, self, gets, ret. simpl. eexists. split.
  { by rewrite length_fmap. }
  split; [apply NoDup_hgetall|]. split.
  { intros c. rewrite list_elem_of_fmap. split.
    - intros ([c' v] & -> & Hin). apply elem_of_hgetall in Hin. by exists v.
    - intros [v Hv]. exists (c, v). split; [done|]. by apply elem_of_hgetall. }
  split; [apply NoDup_fst_map_to_list|].
  intros c. rewrite list_elem_of_fmap. split.
  - intros ([c' v] & -> & Hin). apply elem_of_map_to_list in Hin. by exists v.
  - intros [v Hv]. exists (c, v). split; [done|]. by apply elem_of_map_to_list.
Qed.


Lemma on_pmessage_eval message σ :
  on_pmessage message σ =
  (Ok tt,
   match dispatch message with
   | Some (session_id, fields) =>
       (_send_to_local_connections session_id fields σ).2
   | None =>
       (σ.1, set_log (λ l, l ++ [Error "Error processing Redis message: {e}"]) σ.2)
   end).
Proof.
  destruct σ as [s w]. unfold on_pmessage, dispatch, session_of_channel.
  unfold try_except, bind at 1, index.
  destruct (split_on ":" (channel message) !! 1%nat) as [field|]; simpl; [|done].
  unfold bind at 1, int_of.
  destruct (py_int field) as [sid|]; simpl; [|done].
  unfold bind at 1, json_loads.
  destruct (data message) as [j|raw]; simpl; [|done].
  unfold bind at 1, as_dict. destruct j; simpl; try done.
  unfold bind.
  destruct (local_send_total sid fields s w) as (n & s' & w' & ->). done.
Qed.


Lemma cleanup_once s w :
  ∃ s' w',
    cleanup (s, w) = (Ok tt, (s', w'))
    ∧ _initialized s' = false
    ∧ (∀ t, _listener_task s' = Some t → done t = true)
    ∧ (_listener_task s = Some Running → _listener_task s' = Some Cancelled)
    ∧ (∀ p, pubsub s = Some p →
         if hd false (faults w)
         then pubsub s' = Some p
              ∧ log w' = log w ++ [Error "Error closing pub/sub: {e}"]
         else pubsub s' = Some (MkPubSub (patterns p) true))
    ∧ (pubsub s = None → pubsub s' = None)
    ∧ local_connections s' = local_connections s
    ∧ redis w' = redis w.
Proof.
  destruct s as [cl loc me ps ini task], w as [o t l r f n].
  unfold cleanup, close_pubsub, await_task. mrun.
  destruct task as [[]|]; simpl; destruct ps as [p|]; simpl;
    destruct (hd false f) eqn:Ef; simpl;
    eexists _, _; (split; [reflexivity|]); simpl;
    repeat split; try done; try (by intros ? [= <-]);
    try (intros ? [= <-]; by rewrite ?Ef); try (by destruct r).
Qed.

(** Claim C9.  After any number of earlier calls, from any state of the
    manager and of the store, [cleanup] returns without raising and
    leaves [_initialized] false; no listener task is left running, a
    running one ends cancelled; the subscription, if there is one, is
    closed, or, when the closing round-trip fails, is left as it was with
    one error record; the store and the local registry are not
    touched. *)
Theorem cleanup_never_raises (earlier : nat) s w :
  let σ := Nat.iter earlier (λ σ, (cleanup σ).2) (s, w) in
  ∃ s' w',
    cleanup σ = (Ok tt, (s', w'))
    ∧ _initialized s' = false
    ∧ (∀ t, _listener_task s' = Some t → done t = true)
    ∧ (_listener_task σ.1 = Some Running → _listener_task s' = Some Cancelled)
    ∧ (∀ p, pubsub σ.1 = Some p →
         if hd false (faults σ.2)
         then pubsub s' = Some p
              ∧ log w' = log σ.2 ++ [Error "Error closing pub/sub: {e}"]
         else pubsub s' = Some (MkPubSub (patterns p) true))
    ∧ (pubsub σ.1 = None → pubsub s' = None)
    ∧ local_connections s' = local_connections σ.1
    ∧ redis w' = redis σ.2.
Proof.
  intros σ. destruct σ as [s1 w1]. apply cleanup_once.
Qed.

End RedisFacts.

(** ** The concrete runs *)

Section Runs.
Import RedisManager RedisSpec Scenario.




(** Against claim C1 as stated: process A holds an open socket for
    [c1], registered for session 42, and the PUBLISH fails; the send
    returns 0 and writes to no socket. *)
Lemma publish_failure_skips_local_delivery :
  local_connections process_a_cut.1 !! "c1"%string = Some 1%nat
  ∧ 1%nat ∈ open_sockets process_a_cut.2
  ∧ hashes (redis process_a_cut.2) !! (42, "c1"%string)
    = Some (WJson (JObj c1_info))
  ∧ faults process_a_cut.2 = [true]
  ∧ ∃ σ', send_to_session 42 ping_message process_a_cut = (Ok 0%nat, σ')
          ∧ io_trace σ'.2 = io_trace process_a_cut.2.
Proof.
  split; [by vm_compute|]. split; [by vm_compute|].
  split; [by vm_compute|]. split; [by vm_compute|].
  eexists. by vm_compute.
Qed.

Lemma publish_failure_aborts_send_witness :
  _initialized process_a_cut.1 = true
  ∧ redis_client process_a_cut.1 = true
  ∧ faults process_a_cut.2 = [true]
  ∧ send_to_session 42 ping_message (process_a_cut.1, process_a_cut.2)
    = (Ok 0%nat,
       (process_a_cut.1,
        MkWorld (open_sockets process_a_cut.2) (io_trace process_a_cut.2)
          (log process_a_cut.2
           ++ [Error "Failed to send message to session {session_id}: {e}"])
          (redis process_a_cut.2) [] (now process_a_cut.2))).
Proof.
  split; [reflexivity|]. split; [reflexivity|]. split; [reflexivity|].
  apply publish_failure_aborts_send; reflexivity.
Defined.

Lemma send_to_session_returns_directory_size_witness :
  _initialized process_b.1 = true
  ∧ redis_client process_b.1 = true
  ∧ calm process_b.2
  ∧ ∃ n s' w',
      send_to_session 42 ping_message (process_b.1, process_b.2)
      = (Ok n, (s', w'))
      ∧ n = (hlen 42 (redis w')).1.
Proof.
  assert (Hi : _initialized process_b.1 = true) by (vm_compute; reflexivity).
  assert (Hc : redis_client process_b.1 = true) by (vm_compute; reflexivity).
  assert (Hw : calm process_b.2) by (vm_compute; reflexivity).
  split; [exact Hi|]. split; [exact Hc|]. split; [exact Hw|].
  destruct (send_to_session_returns_directory_size 42 ping_message
              process_b.1 process_b.2 Hi Hc Hw)
    as (n & s' & w' & He & Hn & _).
  exists n, s', w'. split; [exact He|exact Hn].
Defined.

(** The scenario of the specification: process B has no socket for
    session 42, writes nothing, and still reports the one connection
    that process A registered. *)
Example directory_size_is_not_local_count :
  ∃ σ', send_to_session 42 ping_message process_b = (Ok 1%nat, σ')
        ∧ io_trace σ'.2 = io_trace process_b.2.
Proof. eexists. by vm_compute. Qed.

(** Against claim C3 as stated: [c2] is attached to session 2 only,
    yet the record for session 1 lists it under [local_connections], and
    the record has no key [remote_connection_ids]. *)
Lemma session_info_lists_all_local_connections :
  hashes (redis process_a2.2) !! (2, "c2"%string) ≠ None
  ∧ hashes (redis process_a2.2) !! (1, "c2"%string) = None
  ∧ ∃ info σ',
      get_session_info 1 process_a2 = (Ok info, σ')
      ∧ dict_get "local_connections" info = Some (JArr [JStr "c2"])
      ∧ dict_get "remote_connection_ids" info = None
      ∧ info.*1 = ["session_id"; "total_connections"; "connection_count";
                   "local_connections"; "server_id"; "redis_connections"]%string.
Proof.
  split; [by vm_compute|]. split; [by vm_compute|].
  eexists _, _. by vm_compute.
Qed.

Lemma get_session_info_record_witness :
  redis_client process_a2.1 = true
  ∧ calm process_a2.2
  ∧ ∃ info σ', get_session_info 2 (process_a2.1, process_a2.2) = (Ok info, σ')
               ∧ info.*1
                 = ["session_id"; "total_connections"; "connection_count";
                    "local_connections"; "server_id"; "redis_connections"]%string.
Proof.
  split; [reflexivity|]. split; [reflexivity|].
  destruct (get_session_info_record 2 process_a2.1 process_a2.2 eq_refl eq_refl)
    as (remote & loc & w' & -> & _).
  by eexists _, _.
Defined.

(** Against claim C4 as stated: the entry of [c1] names this process,
    [c1] is not in the local registry, all store calls of the pass
    succeed, and the entry is still in the directory afterwards, because
    its reverse mapping was never written. *)
Lemma unmapped_stale_entry_survives :
  _initialized process_a_unmapped.1 = true
  ∧ faults process_a_unmapped.2 = []
  ∧ hashes (redis process_a_unmapped.2) !! (42, "c1"%string)
    = Some (WJson (JObj c1_info))
  ∧ eq_str (dict_get "server_id" c1_info) (server_id process_a_unmapped.1) = true
  ∧ local_connections process_a_unmapped.1 !! "c1"%string = None
  ∧ ∃ σ',
      _send_to_local_connections 42 ping_message process_a_unmapped
      = (Ok 0%nat, σ')
      ∧ hashes (redis σ'.2) !! (42, "c1"%string) = Some (WJson (JObj c1_info)).
Proof.
  do 5 (split; [by vm_compute|]). eexists. by vm_compute.
Qed.

Lemma stale_entries_are_purged_witness :
  _initialized process_a_leaked.1 = true
  ∧ redis_client process_a_leaked.1 = true
  ∧ calm process_a_leaked.2
  ∧ hashes (redis process_a_leaked.2) !! (42, "c1"%string)
    = Some (WJson (JObj c1_info))
  ∧ eq_str (dict_get "server_id" c1_info) (server_id process_a_leaked.1) = true
  ∧ local_connections process_a_leaked.1 !! "c1"%string = None
  ∧ target (redis process_a_leaked.2) "c1" = Some 42
  ∧ ∃ n s' w',
      _send_to_local_connections 42 ping_message
        (process_a_leaked.1, process_a_leaked.2) = (Ok n, (s', w'))
      ∧ hashes (redis w') !! (42, "c1"%string) = None
      ∧ reverse (redis w') !! "c1"%string = None.
Proof.
  assert (Hi : _initialized process_a_leaked.1 = true)
    by (vm_compute; reflexivity).
  assert (Hc : redis_client process_a_leaked.1 = true)
    by (vm_compute; reflexivity).
  assert (Hw : calm process_a_leaked.2) by (vm_compute; reflexivity).
  assert (Hh : hashes (redis process_a_leaked.2) !! (42, "c1"%string)
               = Some (WJson (JObj c1_info))) by (vm_compute; reflexivity).
  assert (Ho : eq_str (dict_get "server_id" c1_info)
                 (server_id process_a_leaked.1) = true)
    by (vm_compute; reflexivity).
  assert (Hl : local_connections process_a_leaked.1 !! "c1"%string = None)
    by (vm_compute; reflexivity).
  assert (Ht : target (redis process_a_leaked.2) "c1" = Some 42)
    by (vm_compute; reflexivity).
  do 7 (split; [assumption|]).
  destruct (stale_entries_are_purged 42 ping_message
              process_a_leaked.1 process_a_leaked.2 "c1" c1_info
              Hi Hc Hw Hh Ho Hl Ht)
    as (n & s' & w' & He & Hg & Hr & _).
  exists n, s', w'. split; [exact He|]. split; [exact Hg|exact Hr].
Defined.



Lemma disconnect_unknown_is_noop_witness :
  reverse (redis (process_a []).2) !! "ghost"%string = None
  ∧ ∃ s' w', disconnect "ghost" ((process_a []).1, (process_a []).2)
             = (Ok tt, (s', w'))
             ∧ redis w' = redis (process_a []).2.
Proof.
  split; [by vm_compute|].
  apply disconnect_unknown_is_noop. by vm_compute.
Defined.

End Runs.

(** * Further results *)

(** ** Numbers and channel names as text *)

Section TextFacts.

(** Run a proof step on each of the ten digits of a decimal number. *)
Ltac each_digit d IH :=
  induction d as [|d IH|d IH|d IH|d IH|d IH|d IH|d IH|d IH|d IH|d IH].

Lemma digits_cons c s acc flag k :
  digit_value c = Some k →
  digits (String c s) acc flag = digits s (10 * acc + k) true.
Proof. intros Hk. unfold digits; fold digits. by rewrite Hk. Qed.

Ltac step_digit :=
  first [ rewrite (digits_cons _ _ _ _ 0) by reflexivity
        | rewrite (digits_cons _ _ _ _ 1) by reflexivity
        | rewrite (digits_cons _ _ _ _ 2) by reflexivity
        | rewrite (digits_cons _ _ _ _ 3) by reflexivity
        | rewrite (digits_cons _ _ _ _ 4) by reflexivity
        | rewrite (digits_cons _ _ _ _ 5) by reflexivity
        | rewrite (digits_cons _ _ _ _ 6) by reflexivity
        | rewrite (digits_cons _ _ _ _ 7) by reflexivity
        | rewrite (digits_cons _ _ _ _ 8) by reflexivity
        | rewrite (digits_cons _ _ _ _ 9) by reflexivity ].

Lemma digits_of_uint_acc d : ∀ acc flag,
  d ≠ Decimal.Nil ∨ flag = true →
  digits (NilEmpty.string_of_uint d) (Z.pos acc) flag
  = Some (Z.pos (Pos.of_uint_acc d acc)).
Proof.
  each_digit d IH; intros acc flag Hd;
    [destruct Hd as [Hd| ->]; [done|reflexivity]|..];
    cbn [NilEmpty.string_of_uint Pos.of_uint_acc];
    step_digit;
    rewrite <- (IH _ true) by (by right); f_equal; lia.
Qed.

Lemma digits_of_uint d : ∀ flag,
  d ≠ Decimal.Nil ∨ flag = true →
  digits (NilEmpty.string_of_uint d) 0 flag = Some (Z.of_N (Pos.of_uint d)).
Proof.
  each_digit d IH; intros flag Hd;
    [destruct Hd as [Hd| ->]; [done|reflexivity]|..];
    cbn [NilEmpty.string_of_uint Pos.of_uint];
    step_digit.
  - apply IH. by right.
  - apply (digits_of_uint_acc d 1 true). by right.
  - apply (digits_of_uint_acc d 2 true). by right.
  - apply (digits_of_uint_acc d 3 true). by right.
  - apply (digits_of_uint_acc d 4 true). by right.
  - apply (digits_of_uint_acc d 5 true). by right.
  - apply (digits_of_uint_acc d 6 true). by right.
  - apply (digits_of_uint_acc d 7 true). by right.
  - apply (digits_of_uint_acc d 8 true). by right.
  - apply (digits_of_uint_acc d 9 true). by right.
Qed.

(** No blank, no colon and no sign among the characters of a number. *)
Lemma uint_string_rstrip d :
  rstrip (NilEmpty.string_of_uint d) = NilEmpty.string_of_uint d.
Proof.
  each_digit d IH; [done|..];
    cbn [NilEmpty.string_of_uint rstrip]; rewrite IH;
    destruct (NilEmpty.string_of_uint d); reflexivity.
Qed.

Lemma uint_string_split d :
  split_on ":" (NilEmpty.string_of_uint d) = [NilEmpty.string_of_uint d].
Proof.
  each_digit d IH; [done|..];
    cbn [NilEmpty.string_of_uint split_on]; rewrite IH; reflexivity.
Qed.

Lemma uint_string_plain d :
  lstrip (rstrip (NilEmpty.string_of_uint d)) = NilEmpty.string_of_uint d
  ∧ rstrip (NilEmpty.string_of_uint d) = NilEmpty.string_of_uint d
  ∧ split_on ":" (NilEmpty.string_of_uint d) = [NilEmpty.string_of_uint d].
Proof.
  split; [|split; [apply uint_string_rstrip|apply uint_string_split]].
  rewrite uint_string_rstrip. destruct d; reflexivity.
Qed.

Lemma py_int_uint d :
  d ≠ Decimal.Nil →
  py_int (NilEmpty.string_of_uint d) = Some (Z.of_N (Pos.of_uint d))
  ∧ py_int (String "-" (NilEmpty.string_of_uint d))
    = Some (- Z.of_N (Pos.of_uint d)).
Proof.
  intros Hd. destruct (uint_string_plain d) as (Hs & Hr & _).
  pose proof (digits_of_uint d false (or_introl Hd)) as Hv. split.
  - unfold py_int. rewrite Hs. destruct d; try done; simpl in *; exact Hv.
  - unfold py_int.
    assert (Hm : rstrip (String "-" (NilEmpty.string_of_uint d))
                 = String "-" (NilEmpty.string_of_uint d)).
    { simpl. rewrite Hr. by destruct d. }
    rewrite Hm. simpl. by rewrite Hv.
Qed.

Theorem py_int_py_str (n : Z) : py_int (py_str n) = Some n.
Proof.
  unfold py_str. destruct n as [|p|p]; [reflexivity|..]; simpl.
  - unfold NilZero.string_of_uint.
    pose proof (DecimalPos.Unsigned.to_uint_nonnil p) as Hn.
    destruct (py_int_uint (Pos.to_uint p) Hn) as [Hp _].
    rewrite DecimalPos.Unsigned.of_to in Hp. by destruct (Pos.to_uint p).
  - unfold NilZero.string_of_uint.
    pose proof (DecimalPos.Unsigned.to_uint_nonnil p) as Hn.
    destruct (py_int_uint (Pos.to_uint p) Hn) as [_ Hp].
    rewrite DecimalPos.Unsigned.of_to in Hp. by destruct (Pos.to_uint p).
Qed.

Lemma py_str_no_colon (n : Z) : split_on ":" (py_str n) = [py_str n].
Proof.
  unfold py_str.
  assert (Hu : ∀ d, split_on ":" (NilZero.string_of_uint d)
                    = [NilZero.string_of_uint d]).
  { intros d. unfold NilZero.string_of_uint.
    destruct (uint_string_plain d) as (_ & _ & Hs). by destruct d. }
  destruct n as [|p|p]; [reflexivity|apply Hu|]. simpl. by rewrite Hu.
Qed.

(** Property X6.  The channel name that [send_to_session] publishes
    on, [session:{session_id}], is read back by the listener's
    [int(channel.split(":")[1])] as the same session id, for every
    integer, negative ones included. *)
Theorem session_channel_round_trip (session_id : Z) :
  RedisSpec.session_of_channel (RedisManager.session_channel session_id)
  = Some session_id.
Proof.
  unfold RedisSpec.session_of_channel, RedisManager.session_channel.
  pose proof (py_str_no_colon session_id) as Hs.
  pose proof (py_int_py_str session_id) as Hi.
  remember (py_str session_id) as text. simpl.
  change (split_on ":" text !! 0%nat ≫= py_int = Some session_id).
  rewrite Hs. exact Hi.
Qed.

End TextFacts.

(** ** More on [manager.py] *)

Section ManagerMore.
Import Manager ManagerSpec ManagerInvariant Scenario.

Lemma remove_first_appended c (l : list string) :
  c ∉ l → list_remove_first c (l ++ [c]) = l.
Proof.
  induction l as [|a l IH]; intros Hn; simpl.
  - by rewrite decide_True.
  - apply not_elem_of_cons in Hn as [Hne Hn].
    rewrite decide_False by done. by rewrite IH.
Qed.

Lemma remove_first_keeps c c' (l : list string) :
  c' ≠ c → c' ∈ l → c' ∈ list_remove_first c l.
Proof.
  intros Hne. induction l as [|a l IH]; simpl; [done|].
  intros Hin. destruct (decide (c = a)) as [->|Ha].
  - apply elem_of_cons in Hin as [->|Hin]; done.
  - apply elem_of_cons in Hin as [->|Hin]; [left|right; by apply IH].
Qed.

Lemma index_append_remove k c (idx : gmap Z (list string)) :
  no_empty_lists idx → c ∉ default [] (idx !! k) →
  index_remove k c (index_append k c idx) = idx.
Proof.
  intros Hne Hn. unfold index_remove, index_append.
  rewrite lookup_insert_eq.
  rewrite decide_True by (apply elem_of_app; right; left).
  rewrite remove_first_appended by done.
  destruct (idx !! k) as [l|] eqn:E; simpl.
  - destruct l as [|x l]; [by apply Hne in E|].
    rewrite insert_insert_eq. by apply insert_id.
  - rewrite delete_insert_eq. by apply delete_id.
Qed.

(** Property X1.  On a manager whose index lists are non-empty,
    [connect] of an id that is not yet registered, followed by
    [disconnect] with the same arguments, gives back the very same
    manager: the index keys created for it are deleted again. *)
Theorem connect_disconnect_round_trip ws c sid uid s w :
  ws ∈ open_sockets w →
  active_connections s !! c = None →
  c ∉ default [] (session_connections s !! sid) →
  (∀ u, uid = Some u → c ∉ default [] (user_connections s !! u)) →
  no_empty_lists (session_connections s) →
  no_empty_lists (user_connections s) →
  (connect ws c sid uid ;;; disconnect c sid uid) (s, w)
  = (Ok tt, (s, set_io_trace (λ t, t ++ [Accepted ws]) w)).
Proof.
  intros Ho Ha Hs Hu Hes Heu. unfold bind. rewrite connect_eval.
  rewrite decide_True by done. rewrite disconnect_eval.
  unfold disconnected, connected. simpl. f_equal. f_equal.
  destruct s as [a ss us]. simpl in *. f_equal.
  - rewrite delete_insert_eq. by apply delete_id.
  - by apply index_append_remove.
  - destruct uid as [u|]; [|done].
    destruct (truthy (Some u)); [|done].
    apply index_append_remove; [done|]. by apply Hu.
Qed.

(** Property X2.  A successful [connect] raises
    [get_session_connection_count] of its session by one and leaves the
    count of every other session as it was; for an id that was not
    active, [get_total_connections] becomes one more than the number of
    active connections. *)
Theorem connect_counts ws c sid uid s w :
  ws ∈ open_sockets w →
  let σ' := (connect ws c sid uid (s, w)).2 in
  (get_session_connection_count sid σ').1
  = Ok (S (List.length (default [] (session_connections s !! sid))))
  ∧ (get_session_connection_count sid (s, w)).1
    = Ok (List.length (default [] (session_connections s !! sid)))
  ∧ (∀ sid', sid' ≠ sid →
       (get_session_connection_count sid' σ').1
       = (get_session_connection_count sid' (s, w)).1)
  ∧ (active_connections s !! c = None →
     (get_total_connections σ').1 = Ok (S (size (active_connections s)))).
Proof.
  intros Ho σ'. subst σ'. rewrite connect_eval, decide_True by done.
  unfold get_session_connection_count, get_total_connections, bind, gets, ret.
  simpl. unfold index_append. rewrite lookup_insert_eq. simpl.
  split; [|split; [done|split]].
  - rewrite length_app. simpl. f_equal. lia.
  - intros sid' Hne. by rewrite lookup_insert_ne.
  - intros Ha. by rewrite map_size_insert_None.
Qed.

Lemma user_step_eval' message c loc s w :
  user_step message c (loc, (s, w)) =
  (Ok tt,
   match active_connections s !! c with
   | None => (loc, (s, w))
   | Some ws =>
       if decide (ws ∈ open_sockets w) then
         (incr_sent loc, (s, set_io_trace (λ t, t ++ [Sent ws message]) w))
       else
         (mark_for_removal c loc,
          (s, set_log (λ l, l ++ [send_error])
                (set_io_trace (λ t, t ++ [SendFailed ws message]) w)))
   end).
Proof.
  unfold user_step, bind, lift, gets. simpl.
  destruct (active_connections s !! c) as [ws|]; [|done].
  unfold try_except, bind, lift, send_json, set_locals, modify.
  destruct (decide (ws ∈ open_sockets w)); done.
Qed.

Lemma user_pass_eval message conns : ∀ loc s w,
  ∃ loc' w',
    user_pass conns message (loc, (s, w)) = (Ok tt, (loc', (s, w')))
    ∧ sent_count loc'
      = (sent_count loc
         + List.length (List.filter is_sent
             (omap (write_attempt (active_connections s) (open_sockets w) message)
                conns)))%nat
    ∧ io_trace w'
      = io_trace w
        ++ omap (write_attempt (active_connections s) (open_sockets w) message)
             conns
    ∧ open_sockets w' = open_sockets w
    ∧ redis w' = redis w.
Proof.
  induction conns as [|c conns IH]; intros loc s w.
  - exists loc, w. simpl. by rewrite Nat.add_0_r, app_nil_r.
  - unfold user_pass in *. simpl for_each. unfold bind at 1.
    rewrite user_step_eval'.
    assert (Hw := eq_refl (write_attempt (active_connections s) (open_sockets w) message c)).
    unfold write_attempt at 2 in Hw. simpl omap. rewrite Hw. clear Hw.
    destruct (active_connections s !! c) as [ws|]; [|apply IH].
    destruct (decide (ws ∈ open_sockets w)).
    + edestruct IH as (loc' & w' & -> & Hn & Ht & Ho & Hr).
      exists loc', w'. split; [done|]. simpl in *.
      rewrite Hn, Ht, Ho, Hr, <- app_assoc. repeat split; try done; lia.
    + edestruct IH as (loc' & w' & -> & Hn & Ht & Ho & Hr).
      exists loc', w'. split; [done|]. simpl in *.
      rewrite Hn, Ht, Ho, Hr, <- app_assoc. repeat split; try done; lia.
Qed.

(** Property X3.  [send_to_user] makes one write attempt per id listed
    for the user that is in [active_connections], returns the number of
    writes that succeeded, and leaves the manager exactly as it was:
    unlike [send_to_session] it unregisters nothing, not even a
    connection whose write raised. *)
Theorem send_to_user_keeps_registry uid message s w conns :
  user_connections s !! uid = Some conns →
  let writes :=
    omap (write_attempt (active_connections s) (open_sockets w) message) conns in
  ∃ w',
    send_to_user uid message (s, w)
    = (Ok (List.length (List.filter is_sent writes)), (s, w'))
    ∧ io_trace w' = io_trace w ++ writes.
Proof.
  intros Hu writes. unfold send_to_user, bind at 1, gets at 1. simpl. rewrite Hu.
  unfold with_locals, bind at 1.
  destruct (user_pass_eval message conns (MkLocals [] 0) s w)
    as (loc & w' & -> & Hn & Ht & _).
  unfold bind at 1, get_locals at 1, gets at 1. simpl. unfold bind at 1.
  assert (Hnop : ∀ (l : list string) (σ : send_locals * St),
            for_each l (λ _, ret tt) σ = (Ok tt, σ)).
  { clear. induction l as [|x l IH]; intros σ; [done|].
    simpl. unfold bind, ret. simpl. apply IH. }
  rewrite Hnop. unfold bind, get_locals, gets, ret. simpl.
  exists w'. by rewrite Hn.
Qed.

(** Property X4.  When the message has no [type] key, the debug record
    of [send_to_session] raises [KeyError] after each write, inside the
    [try]: the call still returns the number of successful writes, and
    every id of the session that was in [active_connections], written or
    not, is unregistered from [active_connections] and from the session's
    list. *)
Theorem untyped_message_unregisters sid message s w conns :
  session_connections s !! sid = Some conns →
  dict_get "type" message = None →
  let writes :=
    omap (write_attempt (active_connections s) (open_sockets w) message) conns in
  ∃ s' w',
    send_to_session sid message (s, w)
    = (Ok (List.length (List.filter is_sent writes)), (s', w'))
    ∧ io_trace w' = io_trace w ++ writes
    ∧ ∀ c, c ∈ conns → is_Some (active_connections s !! c) →
           active_connections s' !! c = None
           ∧ c ∉ default [] (session_connections s' !! sid).
Proof.
  intros Hs Ht writes. rewrite (send_to_session_eval _ _ _ _ conns) by done.
  cbv zeta. eexists _, _. split; [reflexivity|]. simpl. split; [done|].
  intros c Hin [ws Ha].
  assert (Hc : collected (active_connections s) (open_sockets w) message c).
  { apply Is_true_true. unfold collected. rewrite Ha, Ht.
    rewrite (bool_decide_eq_true_2 (None = None)) by done. apply orb_true_r. }
  split.
  - rewrite removed_active. apply foldl_delete_lookup.
    by apply list_elem_of_filter.
  - rewrite removed_sessions, foldl_index_remove_view, Hs. simpl.
    rewrite (remove_collected
               (collected (active_connections s) (open_sockets w) message)).
    intros Hin'. apply list_elem_of_filter in Hin' as [Hn _]. by apply Hn.
Qed.


Lemma index_remove_keeps k c c' k' conns (idx : gmap Z (list string)) :
  c' ≠ c → idx !! k' = Some conns → c' ∈ conns →
  ∃ conns', index_remove k c idx !! k' = Some conns' ∧ c' ∈ conns'.
Proof.
  intros Hne Hl Hin. destruct (decide (k = k')) as [->|Hk].
  - unfold index_remove. rewrite Hl.
    assert (Hin' : c' ∈ (if decide (c ∈ conns)
                         then list_remove_first c conns else conns)).
    { destruct (decide (c ∈ conns)); [by apply remove_first_keeps|done]. }
    destruct (if decide (c ∈ conns) then _ else _) as [|x xs] eqn:E.
    + by apply elem_of_nil in Hin'.
    + exists (x :: xs). by rewrite lookup_insert_eq.
  - exists conns. by rewrite index_remove_other.
Qed.

Lemma connected_active_indexed ws c sid uid s :
  active_indexed s → active_indexed (connected ws c sid uid s).
Proof.
  intros Hs c0. unfold connected. simpl. rewrite lookup_insert.
  destruct (decide (c = c0)) as [->|Hne].
  - intros _. exists sid, (default [] (session_connections s !! sid) ++ [c0]).
    unfold index_append. rewrite lookup_insert_eq. split; [done|].
    apply elem_of_app. right. left.
  - intros Ha. destruct (Hs c0 Ha) as (sid0 & conns & Hl & Hin).
    unfold index_append. destruct (decide (sid = sid0)) as [->|Hk].
    + exists sid0, (conns ++ [c]). rewrite lookup_insert_eq, Hl. simpl.
      split; [done|]. apply elem_of_app. by left.
    + exists sid0, conns. by rewrite lookup_insert_ne.
Qed.

Lemma disconnected_active_indexed c sid uid s :
  active_indexed s → active_indexed (disconnected c sid uid s).
Proof.
  intros Hs c0. unfold disconnected. simpl. rewrite lookup_delete.
  destruct (decide (c = c0)) as [->|Hne]; [by intros [? ?]|].
  intros Ha. destruct (Hs c0 Ha) as (sid0 & conns & Hl & Hin).
  destruct (index_remove_keeps sid c c0 sid0 conns (session_connections s))
    as (conns' & Hl' & Hin'); [done..|].
  by exists sid0, conns'.
Qed.

Lemma removed_active_indexed sid conns : ∀ s,
  active_indexed s → active_indexed (removed sid s conns).
Proof.
  induction conns as [|c conns IH]; intros s Hs; [done|].
  simpl. apply IH. by apply disconnected_active_indexed.
Qed.

Lemma step_active_indexed σ o :
  active_indexed σ.1 → active_indexed (step σ o).1.
Proof.
  destruct σ as [s w]. simpl. intros Hs. destruct o; simpl; try exact Hs.
  - rewrite connect_eval. destruct (decide (ws ∈ open_sockets w)); [|exact Hs].
    by apply connected_active_indexed.
  - rewrite disconnect_eval. by apply disconnected_active_indexed.
  - destruct (session_connections s !! session_id) as [conns|] eqn:E.
    + rewrite (send_to_session_eval _ _ _ _ conns) by done.
      by apply removed_active_indexed.
    + by rewrite send_to_session_absent.
  - by rewrite send_to_user_self.
Qed.

(** Property X5.  In every state a manager can reach, each id of
    [active_connections] is listed under at least one session, so no
    active connection is out of reach of [send_to_session]. *)
Theorem active_connections_are_indexed (w0 : World) (ops : list op) :
  active_indexed (run ops (__init__, w0)).1.
Proof.
  assert (Hrun : ∀ ops σ, active_indexed σ.1 → active_indexed (run ops σ).1).
  { clear. induction ops as [|o ops IH]; intros σ H; [done|].
    simpl. apply IH. by apply step_active_indexed. }
  apply Hrun. intros c [ws Hc]. simpl in Hc. by rewrite lookup_empty in Hc.
Qed.

End ManagerMore.

(** ** More on [redis_manager.py] *)

Section RedisMore.
Import RedisManager RedisSpec RedisForms Scenario.

Lemma connect_calm ws c sid uid s w :
  ws ∈ open_sockets w → redis_client s = true → calm w →
  ∃ w', connect ws c sid uid (s, w) = (Ok tt, (with_connection c ws s, w'))
        ∧ redis w' = registered (server_id s) c sid uid (now w) (redis w)
        ∧ calm w'
        ∧ open_sockets w' = open_sockets w
        ∧ io_trace w' = io_trace w ++ [Accepted ws].
Proof.
  destruct s as [cl loc me ps ini task], w as [o t l r f n].
  unfold calm. simpl. intros Ho -> Hf.
  pose proof (quiet_tail _ Hf) as Hf1. pose proof (quiet_tail _ Hf1) as Hf2.
  pose proof (quiet_tail _ Hf2) as Hf3. pose proof (quiet_tail _ Hf3) as Hf4.
  pose proof (quiet_tail _ Hf4) as Hf5. pose proof (quiet_tail _ Hf5) as Hf6.
  unfold connect, accept. mrun. rewrite decide_True by done. simpl.
  repeat (rewrite quiet_hd by done; simpl).
  eexists. split; [reflexivity|]. simpl. done.
Qed.

(** Property X7.  [connect] of the Redis manager fails only on the
    handshake: when the socket accepts, the call returns normally with
    the socket in the local registry whatever store calls fail; when
    [accept] raises, the exception propagates and neither the registry
    nor the store is touched. *)
Theorem connect_swallows_store_failures ws c sid uid s w :
  (ws ∈ open_sockets w →
   ∃ w', connect ws c sid uid (s, w) = (Ok tt, (with_connection c ws s, w'))
         ∧ io_trace w' = io_trace w ++ [Accepted ws])
  ∧ (ws ∉ open_sockets w →
     connect ws c sid uid (s, w) = (Raise WebSocketError, (s, w))).
Proof.
  destruct s as [cl loc me ps ini task], w as [o t l r f n]. simpl. split.
  - intros Ho. unfold connect, accept. mrun. rewrite decide_True by done. simpl.
    destruct cl; simpl; [|by eexists].
    destruct (hd false f); simpl; [by eexists|].
    destruct (hd false (tail f)); simpl; [by eexists|].
    destruct (hd false (tail (tail f))); simpl; [by eexists|].
    destruct (hd false (tail (tail (tail f)))); simpl; [by eexists|].
    destruct (hd false (tail (tail (tail (tail f))))); simpl; [by eexists|].
    destruct (hd false (tail (tail (tail (tail (tail f)))))); simpl; by eexists.
  - intros Ho. unfold connect, accept. mrun. by rewrite decide_False.
Qed.


Lemma py_str_nonempty n : py_str n ≠ EmptyString.
Proof.
  intros He. pose proof (py_int_py_str n) as Hp. rewrite He in Hp. done.
Qed.

Lemma target_registered me c sid uid t r :
  target (registered me c sid uid t r) c = Some sid.
Proof.
  unfold target, registered. simpl. rewrite lookup_insert_eq.
  pose proof (py_int_py_str sid) as Hp.
  destruct (py_str sid) as [|a bytes] eqn:E; [|done].
  by apply py_str_nonempty in E.
Qed.

Lemma hlen_hset_fresh sid c v r :
  hashes r !! (sid, c) = None →
  (hlen sid (hset sid c v r).2).1 = S (hlen sid r).1.
Proof.
  intros Hf. unfold hlen, hgetall, hset. simpl.
  rewrite (map_to_list_insert _ _ _ Hf). simpl. by rewrite decide_True.
Qed.

(** Property X8.  When the store calls succeed, [connect] stores the
    socket locally, writes the directory entry with this process's
    [server_id], writes a reverse mapping that [disconnect] reads back as
    the same session, adds one to the session's counter, leaves every
    other hash field alone, makes the directory one field longer when the
    id was new, and leaves an entry that the next local send writes
    to. *)
Theorem connect_registers ws c sid uid s w :
  ws ∈ open_sockets w → redis_client s = true → calm w →
  let info := json_dumps (connection_info (server_id s) uid (now w)) in
  ∃ s' w',
    connect ws c sid uid (s, w) = (Ok tt, (s', w'))
    ∧ local_connections s' !! c = Some ws
    ∧ hashes (redis w') !! (sid, c) = Some info
    ∧ target (redis w') c = Some sid
    ∧ default 0 (counters (redis w') !! sid)
      = default 0 (counters (redis w) !! sid) + 1
    ∧ judge s' (open_sockets w') (c, info) = Written ws
    ∧ (hashes (redis w) !! (sid, c) = None →
       (hlen sid (redis w')).1 = S (hlen sid (redis w)).1)
    ∧ (∀ key, key ≠ (sid, c) →
         hashes (redis w') !! key = hashes (redis w) !! key).
Proof.
  intros Ho Hc Hw info.
  destruct (connect_calm ws c sid uid s w Ho Hc Hw) as (w' & -> & Hr & _ & Ho' & _).
  eexists _, w'. split; [reflexivity|]. rewrite Hr, Ho'.
  split; [apply lookup_insert_eq|].
  split; [apply lookup_insert_eq|].
  split; [apply target_registered|].
  split; [simpl; by rewrite lookup_insert_eq|].
  split.
  { unfold judge, info, json_dumps, connection_info, eq_str. simpl.
    rewrite String.eqb_refl. rewrite lookup_insert_eq. by rewrite decide_True. }
  split.
  { intros Hf. unfold hlen, hgetall, registered. simpl.
    rewrite (map_to_list_insert _ _ _ Hf). simpl. by rewrite decide_True. }
  intros key Hk. simpl. by rewrite lookup_insert_ne.
Qed.

(** Property X9.  On an initialized manager whose store calls succeed,
    [connect] of a new id followed by [disconnect] leaves the manager, the
    directory hashes, the reverse mappings and the published messages as
    they were, and every session counter with its former value. *)
Theorem connect_disconnect_store_round_trip ws c sid uid s w :
  ws ∈ open_sockets w → _initialized s = true → redis_client s = true →
  calm w →
  local_connections s !! c = None →
  hashes (redis w) !! (sid, c) = None →
  reverse (redis w) !! c = None →
  ∃ w',
    (connect ws c sid uid ;;; disconnect c) (s, w) = (Ok tt, (s, w'))
    ∧ hashes (redis w') = hashes (redis w)
    ∧ reverse (redis w') = reverse (redis w)
    ∧ (∀ k, default 0 (counters (redis w') !! k)
            = default 0 (counters (redis w) !! k))
    ∧ published (redis w') = published (redis w).
Proof.
  intros Ho Hi Hc Hw Hl Hh Hr. unfold bind.
  destruct (connect_calm ws c sid uid s w Ho Hc Hw)
    as (w1 & -> & Hr1 & Hw1 & _ & _).
  destruct (disconnect_calm c (with_connection c ws s) w1 Hi Hc Hw1)
    as (w2 & -> & Hr2 & _).
  exists w2. split.
  { f_equal. f_equal. destruct s as [cl loc me ps ini task]. unfold dropped.
    simpl in *. f_equal. by apply delete_insert_id. }
  rewrite Hr2, Hr1. unfold purge. rewrite target_registered. simpl.
  split; [by apply delete_insert_id|]. split; [by apply delete_insert_id|].
  split; [|done].
  intros k. rewrite lookup_insert_eq. simpl. rewrite insert_insert_eq.
  rewrite lookup_insert. destruct (decide (sid = k)) as [->|]; simpl; [lia|done].
Qed.

(** Property X10.  [connect] does not look at [_initialized], but
    [disconnect] returns early when it is false: on a manager that was not
    initialized, [connect] then [disconnect] forgets the socket locally
    and leaves the directory entry, the reverse mapping and the counter
    that [connect] wrote. *)
Theorem uninitialized_disconnect_leaves_entry ws c sid uid s w :
  ws ∈ open_sockets w → _initialized s = false → redis_client s = true →
  calm w →
  ∃ s' w',
    (connect ws c sid uid ;;; disconnect c) (s, w) = (Ok tt, (s', w'))
    ∧ local_connections s' !! c = None
    ∧ redis w' = registered (server_id s) c sid uid (now w) (redis w)
    ∧ hashes (redis w') !! (sid, c)
      = Some (json_dumps (connection_info (server_id s) uid (now w)))
    ∧ target (redis w') c = Some sid.
Proof.
  intros Ho Hi Hc Hw. unfold bind.
  destruct (connect_calm ws c sid uid s w Ho Hc Hw)
    as (w1 & -> & Hr1 & _ & _ & _).
  destruct s as [cl loc me ps ini task]. simpl in *. subst.
  unfold disconnect, with_connection. mrun.
  eexists _, w1. split; [reflexivity|]. simpl.
  split; [apply lookup_delete_eq|]. split; [done|]. rewrite Hr1.
  split; [apply lookup_insert_eq|apply target_registered].
Qed.


(** Property X11.  [initialize] never touches the keys of the store,
    the local registry or a socket.  On an initialized manager it does
    nothing at all.  Otherwise it either returns with the manager
    initialized, subscribed to [session:*] and its listener running, or
    raises ([RuntimeError] without a client, the store's error after
    logging it) and leaves the manager not initialized, with no listener
    started. *)
Theorem initialize_outcome s w :
  ∃ r s' w',
    initialize (s, w) = (r, (s', w'))
    ∧ redis w' = redis w
    ∧ local_connections s' = local_connections s
    ∧ io_trace w' = io_trace w
    ∧ (_initialized s = true → r = Ok tt ∧ s' = s ∧ w' = w)
    ∧ (_initialized s = false →
       match r with
       | Ok _ =>
           _initialized s' = true
           ∧ pubsub s' = Some (MkPubSub ["session:*"%string] false)
           ∧ _listener_task s' = Some Running
       | Raise e =>
           _initialized s' = false
           ∧ _listener_task s' = _listener_task s
           ∧ (e = RuntimeError ∧ redis_client s = false ∧ w' = w
              ∨ e = RedisError ∧ redis_client s = true
                ∧ log w'
                  = log w
                    ++ [Error "Failed to initialize Redis WebSocket manager: {e}"])
       end).
Proof.
  destruct s as [cl loc me ps ini task], w as [o t l r f n].
  unfold initialize. mrun.
  destruct ini; simpl; [|destruct cl; simpl;
    [destruct (hd false f); simpl; [|destruct (hd false (tail f)); simpl]|]];
    (eexists _, _, _; split; [reflexivity|]); simpl;
    repeat split; try done; try (by destruct r);
    try (by left); try (by right).
Qed.

Lemma initialize_calm s w :
  _initialized s = false → redis_client s = true → calm w →
  ∃ w',
    initialize (s, w)
    = (Ok tt,
       (MkManager true (local_connections s) (server_id s)
          (Some (MkPubSub ["session:*"%string] false)) true (Some Running),
        w'))
    ∧ calm w' ∧ redis w' = redis w ∧ io_trace w' = io_trace w
    ∧ open_sockets w' = open_sockets w.
Proof.
  destruct s as [cl loc me ps ini task], w as [o t l r f n].
  unfold calm. simpl. intros -> -> Hf.
  pose proof (quiet_tail _ Hf) as Hf1. pose proof (quiet_tail _ Hf1) as Hf2.
  unfold initialize. mrun. repeat (rewrite quiet_hd by done; simpl).
  eexists. split; [reflexivity|]. simpl. repeat split; try done; by destruct r.
Qed.

Lemma cleanup_calm s w :
  _listener_task s = Some Running → calm w →
  ∀ p, pubsub s = Some p →
  ∃ w',
    cleanup (s, w)
    = (Ok tt,
       (MkManager (redis_client s) (local_connections s) (server_id s)
          (Some (MkPubSub (patterns p) true)) false (Some Cancelled),
        w'))
    ∧ calm w' ∧ redis w' = redis w ∧ io_trace w' = io_trace w
    ∧ open_sockets w' = open_sockets w.
Proof.
  destruct s as [cl loc me ps ini task], w as [o t l r f n].
  unfold calm. simpl. intros -> Hf p ->.
  pose proof (quiet_tail _ Hf) as Hf1.
  unfold cleanup, close_pubsub, await_task. mrun.
  repeat (rewrite quiet_hd by done; simpl).
  eexists. split; [reflexivity|]. simpl. repeat split; try done; by destruct r.
Qed.

(** Property X12.  With store calls succeeding, [initialize] then
    [cleanup] leaves the manager not initialized, its listener cancelled
    and its subscription closed, and a further [initialize] brings it
    back: initialized, a fresh subscription to [session:*], a running
    listener, the same local registry and the same store. *)
Theorem initialize_cleanup_initialize s w :
  _initialized s = false → redis_client s = true → calm w →
  ∃ w1 w2 w3,
    initialize (s, w)
    = (Ok tt,
       (MkManager true (local_connections s) (server_id s)
          (Some (MkPubSub ["session:*"%string] false)) true (Some Running),
        w1))
    ∧ cleanup (exec initialize (s, w))
      = (Ok tt,
         (MkManager true (local_connections s) (server_id s)
            (Some (MkPubSub ["session:*"%string] true)) false (Some Cancelled),
          w2))
    ∧ initialize (exec cleanup (exec initialize (s, w)))
      = (Ok tt,
         (MkManager true (local_connections s) (server_id s)
            (Some (MkPubSub ["session:*"%string] false)) true (Some Running),
          w3))
    ∧ redis w3 = redis w.
Proof.
  intros Hi Hc Hw. unfold exec.
  destruct (initialize_calm s w Hi Hc Hw) as (w1 & E1 & Hw1 & Hr1 & _).
  rewrite E1. simpl.
  destruct (cleanup_calm
              (MkManager true (local_connections s) (server_id s)
                 (Some (MkPubSub ["session:*"%string] false)) true (Some Running))
              w1 eq_refl Hw1 _ eq_refl) as (w2 & E2 & Hw2 & Hr2 & _).
  rewrite E2. simpl.
  destruct (initialize_calm
              (MkManager true (local_connections s) (server_id s)
                 (Some (MkPubSub ["session:*"%string] true)) false (Some Cancelled))
              w2 eq_refl eq_refl Hw2) as (w3 & E3 & _ & Hr3 & _).
  simpl in E3. rewrite E3.
  exists w1, w2, w3. repeat split; try done. by rewrite Hr3, Hr2, Hr1.
Qed.

(** Property X13.  After [cleanup], from any state, [send_to_session]
    returns 0 after one warning: it publishes nothing, reads nothing and
    writes to no socket. *)
Theorem send_after_cleanup_is_refused sid message s w :
  let σ := exec cleanup (s, w) in
  send_to_session sid message σ
  = (Ok 0%nat,
     (σ.1, set_log (λ l, l ++ [Warning "Redis not initialized, cannot send message"])
             σ.2)).
Proof.
  intros σ. subst σ. unfold exec.
  destruct (cleanup_once s w) as (s' & w' & -> & Hi & _). simpl.
  unfold send_to_session. unfold bind at 1, self at 1, gets at 1. simpl.
  by rewrite Hi.
Qed.

(** Property X14.  [get_session_connection_count] of the Redis manager
    never raises and never changes the store or the manager: it returns
    the number of fields of the session's directory hash when its
    round-trip succeeds, and 0 with one error record when the round-trip
    fails or there is no client. *)
Theorem connection_count_never_raises sid s w :
  ∃ n w',
    get_session_connection_count sid (s, w) = (Ok n, (s, w'))
    ∧ redis w' = redis w
    ∧ io_trace w' = io_trace w
    ∧ (redis_client s = true → hd false (faults w) = false →
       n = (hlen sid (redis w)).1 ∧ log w' = log w)
    ∧ (redis_client s = false ∨ hd false (faults w) = true →
       n = 0%nat
       ∧ log w' = log w ++ [Error "Error getting connection count: {e}"]).
Proof.
  destruct s as [cl loc me ps ini task], w as [o t l r f n].
  unfold get_session_connection_count. mrun.
  destruct cl; simpl.
  2:{ eexists _, _. split; [reflexivity|]. simpl. repeat split; try done. }
  destruct (hd false f); simpl;
    (eexists _, _; split; [reflexivity|]); simpl;
    repeat split; try done; try (by destruct r);
    try (by intros [|]); by destruct H.
Qed.


(** Property X15.  When the subscription's connection fails after
    messages whose channel names are plain text (ASCII, of at most 640
    characters), the listener has handled those messages, logs one error
    and returns normally; nothing that would have come after the failure
    is handled. *)
Theorem listener_stops_on_broken_stream messages rest s w :
  is_Some (pubsub s) →
  Forall (λ message, plain_text (channel message) = true) messages →
  let σ := foldl handled (s, w) messages in
  _redis_listener ((Delivered <$> messages) ++ Broken :: rest) (s, w)
  = (Ok tt,
     (σ.1, set_log (λ l, l ++ [Error "Redis listener error: {e}"]) σ.2)).
Proof.
  intros [p Hp] _ σ. subst σ.
  unfold _redis_listener, try_except, bind at 1, self at 1, gets at 1.
  simpl. rewrite Hp.
  assert (Hloop : ∀ msgs σ,
            for_each ((Delivered <$> msgs) ++ Broken :: rest)
              (λ item, match item with
                       | Broken => raise RedisError
                       | Delivered message =>
                           if String.eqb (mtype message) "pmessage"
                           then on_pmessage message
                           else ret tt
                       end) σ
            = (Raise RedisError, foldl handled σ msgs)).
  { clear. induction msgs as [|m msgs IH]; intros σ; [done|].
    simpl for_each. unfold bind at 1. simpl foldl.
    assert (Hh := eq_refl (handled σ m)). unfold handled at 2 in Hh.
    destruct (String.eqb (mtype m) "pmessage").
    - rewrite on_pmessage_eval, IH. by rewrite Hh.
    - unfold ret at 1. rewrite IH. by rewrite Hh. }
  rewrite Hloop. simpl. by destruct (foldl handled (s, w) messages).
Qed.

(** Property X16.  [_send_to_local_connections] never raises; when its
    read of the directory fails it returns 0 after one error record,
    writes to no socket and leaves the manager and the store as they
    were. *)
Theorem local_send_survives_store_failure sid message s w :
  (∃ n s' w', _send_to_local_connections sid message (s, w) = (Ok n, (s', w')))
  ∧ (redis_client s = true → hd false (faults w) = true →
     _send_to_local_connections sid message (s, w)
     = (Ok 0%nat,
        (s, MkWorld (open_sockets w) (io_trace w)
              (log w ++ [Error "Error in _send_to_local_connections: {e}"])
              (redis w) (tail (faults w)) (now w)))).
Proof.
  split; [apply local_send_total|].
  destruct s as [cl loc me ps ini task], w as [o t l r f n]. simpl.
  intros -> Hf. unfold _send_to_local_connections. mrun. by rewrite Hf.
Qed.

Lemma dropped_local conns c s :
  c ∈ conns → local_connections (dropped conns s) !! c = None.
Proof. intros Hin. unfold dropped. simpl. by apply foldl_delete_lookup. Qed.

(** Property X17.  On an initialized manager whose store calls
    succeed, take a directory entry of this process whose local socket is
    closed and whose reverse mapping reads as the session of the pass.
    Its socket gets a failed write during the pass and no successful
    one, and the entry is then unregistered: gone from the local
    registry, from the directory hash and from the reverse mappings. *)
Theorem dead_socket_is_unregistered sid message s w c ws fields :
  _initialized s = true → redis_client s = true → calm w →
  hashes (redis w) !! (sid, c) = Some (WJson (JObj fields)) →
  eq_str (dict_get "server_id" fields) (server_id s) = true →
  local_connections s !! c = Some ws →
  ws ∉ open_sockets w →
  target (redis w) c = Some sid →
  ∃ n s' w',
    _send_to_local_connections sid message (s, w) = (Ok n, (s', w'))
    ∧ local_connections s' !! c = None
    ∧ hashes (redis w') !! (sid, c) = None
    ∧ reverse (redis w') !! c = None
    ∧ SendFailed ws message ∈ io_trace w'
    ∧ Sent ws message ∉ drop (List.length (io_trace w)) (io_trace w').
Proof.
  intros Hi Hc Hw Hh Hown Hloc Hclosed Ht.
  destruct (local_send_calm sid message s w Hi Hc Hw)
    as (w' & He & Hr & _ & _ & Hio).
  cbv zeta in *.
  assert (Hj : judge s (open_sockets w) (c, WJson (JObj fields)) = WriteFailed ws).
  { unfold judge. simpl. rewrite Hown, Hloc. by rewrite decide_False. }
  assert (Hent : (c, WJson (JObj fields)) ∈ (hgetall sid (redis w)).1)
    by (by apply elem_of_hgetall).
  assert (Hm : c ∈ omap (collected_id s (open_sockets w)) (hgetall sid (redis w)).1).
  { apply elem_of_marked. exists (WJson (JObj fields)). by rewrite Hj. }
  eexists _, _, w'. split; [exact He|].
  split; [by apply dropped_local|]. rewrite Hr.
  destruct (purged_gone _ sid c (redis w) Hm Ht) as [Hg1 Hg2].
  split; [done|]. split; [done|]. rewrite Hio. split.
  - apply elem_of_app. right. apply list_elem_of_omap.
    exists (WriteFailed ws). split; [|done].
    apply list_elem_of_fmap. by exists (c, WJson (JObj fields)).
  - rewrite drop_app_length. intros Hin.
    apply list_elem_of_omap in Hin as (v & Hv & Hwv).
    apply list_elem_of_fmap in Hv as ([c2 v2] & -> & Hin2).
    unfold judge in Hwv. simpl in Hwv.
    destruct v2 as [[| | | | |f2]|]; try done.
    destruct (eq_str (dict_get "server_id" f2) (server_id s)); [|done].
    destruct (local_connections s !! c2) as [ws2|]; [|done].
    destruct (decide (ws2 ∈ open_sockets w)) as [Ho2|]; [|done].
    simpl in Hwv. injection Hwv as ->. done.
Qed.


Lemma dict_get_set k v d : dict_get k (dict_set k v d) = Some v.
Proof.
  induction d as [|[k' v'] d IH]; simpl.
  - by rewrite String.eqb_refl.
  - destruct (String.eqb k k') eqn:E; simpl; by rewrite ?String.eqb_refl, ?E.
Qed.

Lemma dict_get_set_other k k' v d :
  k' ≠ k → dict_get k' (dict_set k v d) = dict_get k' d.
Proof.
  intros Hne. induction d as [|[k2 v2] d IH]; simpl.
  - by rewrite (proj2 (String.eqb_neq k' k)).
  - destruct (String.eqb k k2) eqn:E; simpl.
    + apply String.eqb_eq in E as <-.
      by rewrite (proj2 (String.eqb_neq k' k)).
    + by rewrite IH.
Qed.

Lemma purged_published conns : ∀ r,
  published (foldl purge r conns) = published r.
Proof.
  induction conns as [|c conns IH]; intros r; [done|].
  simpl. rewrite IH. unfold purge. by destruct (target r c).
Qed.

(** Property X18.  When the store calls succeed, [send_to_session]
    publishes exactly one message, on the session's channel, whose
    payload is the message with [server_id] set to this process's id and
    every other key unchanged; a listener that receives it passes that
    payload to the local-send path of the same session. *)
Theorem published_message_comes_back sid message s w :
  _initialized s = true → redis_client s = true → calm w →
  let sent := dict_set "server_id" (JStr (server_id s)) message in
  let payload := json_dumps (JObj sent) in
  ∃ n s' w',
    send_to_session sid message (s, w) = (Ok n, (s', w'))
    ∧ published (redis w')
      = published (redis w) ++ [(session_channel sid, payload)]
    ∧ dispatch (MkMessage "pmessage" (session_channel sid) payload)
      = Some (sid, sent)
    ∧ dict_get "server_id" sent = Some (JStr (server_id s))
    ∧ (∀ k, k ≠ "server_id"%string → dict_get k sent = dict_get k message).
Proof.
  intros Hi Hc Hw sent payload.
  unfold send_to_session, bind at 1, self at 1, gets at 1.
  simpl. rewrite Hi. simpl. unfold try_except, bind at 1, self at 1, gets at 1.
  simpl. unfold bind at 1. rewrite call_calm by done. simpl.
  unfold bind at 1.
  match goal with
  | |- context [_send_to_local_connections sid message (s, ?w0)] =>
      destruct (local_send_calm sid message s w0 Hi Hc (calm_after_call _ w Hw))
        as (w2 & -> & Hr & Hw2 & _ & _)
  end.
  unfold bind at 1. rewrite count_calm by done. unfold ret.
  eexists _, _, _. split; [reflexivity|]. simpl. rewrite Hr.
  split; [by rewrite purged_published|].
  split.
  { assert (Hch : session_of_channel (session_channel sid) = Some sid).
    { unfold session_of_channel, session_channel.
      pose proof (py_str_no_colon sid) as Hs.
      pose proof (py_int_py_str sid) as Hn.
      remember (py_str sid) as text. simpl.
      change (split_on ":" text !! 0%nat ≫= py_int = Some sid).
      rewrite Hs. exact Hn. }
    unfold dispatch. simpl channel. by rewrite Hch. }
  split; [apply dict_get_set|]. intros k Hk. by apply dict_get_set_other.
Qed.

(** Property X19.  There is no de-duplication: when the pass has
    nothing to remove, running the local send twice with the same message
    makes the same socket writes twice, returns the same count both
    times, and leaves the manager and the store as they were. *)
Theorem repeated_send_repeats_writes sid message s w :
  _initialized s = true → redis_client s = true → calm w →
  omap (collected_id s (open_sockets w)) (hgetall sid (redis w)).1 = [] →
  let writes :=
    omap (write_of message)
      (judge s (open_sockets w) <$> (hgetall sid (redis w)).1) in
  ∃ n w1 w2,
    _send_to_local_connections sid message (s, w) = (Ok n, (s, w1))
    ∧ _send_to_local_connections sid message (s, w1) = (Ok n, (s, w2))
    ∧ io_trace w1 = io_trace w ++ writes
    ∧ io_trace w2 = io_trace w ++ writes ++ writes
    ∧ redis w2 = redis w.
Proof.
  intros Hi Hc Hw Hm writes.
  destruct (local_send_calm sid message s w Hi Hc Hw)
    as (w1 & E1 & Hr1 & Hw1 & Ho1 & Ht1).
  cbv zeta in *. rewrite Hm in E1, Hr1. simpl in Hr1.
  destruct (local_send_calm sid message s w1 Hi Hc Hw1)
    as (w2 & E2 & Hr2 & _ & _ & Ht2).
  cbv zeta in *. rewrite Hr1, Ho1 in E2, Hr2, Ht2.
  rewrite Hm in E2, Hr2. simpl in Hr2.
  assert (Hs : dropped [] s = s) by (by destruct s).
  rewrite Hs in E1, E2.
  eexists _, w1, w2. split; [exact E1|]. split; [exact E2|].
  split; [done|]. split; [|by rewrite Hr2].
  rewrite Ht2, Ht1. by rewrite <- app_assoc.
Qed.

End RedisMore.

(** ** [__init__.py] *)

Section PackageFacts.
Import RedisManager Package.

(** Property X20.  [initialize_websocket_manager] never raises and
    never touches the keys of the store.  Without a client it returns
    [None] and leaves the global as it was.  With a client it returns the
    new manager, initialized and listening, exactly when the two
    round-trips of [initialize] succeed; when one of them fails it
    returns [None] although the global now holds the new manager, not
    initialized and without a listener. *)
Theorem initialize_websocket_manager_outcome client sid g w :
  ∃ r g' w',
    initialize_websocket_manager client sid (g, w) = (Ok r, (g', w'))
    ∧ redis w' = redis w
    ∧ io_trace w' = io_trace w
    ∧ (client = false → r = None ∧ g' = g)
    ∧ (client = true →
       match r with
       | Some m =>
           g' = Some m
           ∧ m = MkManager true ∅ sid
                   (Some (MkPubSub ["session:*"%string] false)) true
                   (Some Running)
           ∧ hd false (faults w) = false
           ∧ hd false (tail (faults w)) = false
       | None =>
           (∃ m, g' = Some m
                 ∧ _initialized m = false
                 ∧ _listener_task m = None
                 ∧ local_connections m = ∅)
           ∧ (hd false (faults w) = true ∨ hd false (tail (faults w)) = true)
       end).
Proof.
  destruct w as [o t l r f n].
  unfold initialize_websocket_manager, on_ws_manager, set_ws_manager, initialize,
    __init__.
  mrun. destruct client; simpl.
  2:{ eexists _, _, _. split; [reflexivity|]. by repeat split. }
  destruct (hd false f); simpl.
  { eexists _, _, _. split; [reflexivity|]. simpl.
    repeat split; try done; try (by destruct r); try (by left).
    eexists. by repeat split. }
  destruct (hd false (tail f)); simpl.
  { eexists _, _, _. split; [reflexivity|]. simpl.
    repeat split; try done; try (by destruct r); try (by right).
    eexists. by repeat split. }
  eexists _, _, _. split; [reflexivity|]. simpl.
  repeat split; try done; by destruct r.
Qed.

Lemma cleanup_frame s w :
  ∃ s' w',
    cleanup (s, w) = (Ok tt, (s', w'))
    ∧ redis w' = redis w
    ∧ io_trace w' = io_trace w.
Proof.
  destruct s as [cl loc me ps ini task], w as [o t l r f n].
  unfold cleanup, close_pubsub, await_task. mrun.
  destruct task as [[]|]; simpl; destruct ps as [p|]; simpl;
    destruct (hd false f); simpl;
    eexists _, _; (split; [reflexivity|]); simpl; by destruct r.
Qed.

(** Property X21.  [cleanup_websocket_manager] never raises, whatever
    the global holds, leaves the global [None] and the store untouched;
    afterwards [get_websocket_manager] returns [None] and a second
    cleanup changes nothing. *)
Theorem cleanup_websocket_manager_clears g w :
  ∃ w',
    cleanup_websocket_manager (g, w) = (Ok tt, (None, w'))
    ∧ redis w' = redis w
    ∧ io_trace w' = io_trace w
    ∧ get_websocket_manager (None, w') = (Ok None, (None, w'))
    ∧ cleanup_websocket_manager (None, w') = (Ok tt, (None, w')).
Proof.
  unfold cleanup_websocket_manager, get_websocket_manager, on_ws_manager,
    set_ws_manager.
  unfold bind at 1. unfold bind at 1, gets at 1. simpl.
  destruct g as [s|]; simpl.
  - unfold try_except.
    destruct (cleanup_frame s w) as (s' & w' & -> & Hr & Ht).
    simpl. unfold modify. simpl. exists w'. by repeat split.
  - exists w. by repeat split.
Qed.


(** Property X22.  After a start-up in which a round-trip of
    [initialize] failed, the global manager exists and [send_to_session]
    on it returns 0 without publishing or writing to a socket. *)
Theorem failed_startup_refuses_sends sid session_id message g w :
  hd false (faults w) = true ∨ hd false (tail (faults w)) = true →
  ∃ g' w',
    (initialize_websocket_manager true sid ;;;
     on_ws_manager (send_to_session session_id message)) (g, w)
    = (Ok 0%nat, (g', w'))
    ∧ is_Some g'
    ∧ redis w' = redis w
    ∧ io_trace w' = io_trace w.
Proof.
  destruct w as [o t l r f n]. simpl.
  unfold initialize_websocket_manager, on_ws_manager, set_ws_manager, initialize,
    send_to_session, __init__.
  intros Hf. mrun.
  destruct (hd false f); simpl.
  { eexists _, _. split; [reflexivity|]. simpl.
    repeat split; try done; by destruct r. }
  destruct Hf as [Hf|Hf]; [done|]. rewrite Hf. simpl.
  eexists _, _. split; [reflexivity|]. simpl.
  repeat split; try done; by destruct r.
Qed.

End PackageFacts.

(** ** Further concrete runs *)

Section MoreRuns.
Import RedisSpec RedisForms Scenario MoreScenario.

Lemma connect_disconnect_round_trip_witness :
  1%nat ∈ open_sockets (world [])
  ∧ Manager.active_connections Manager.__init__ !! "c1"%string = None
  ∧ ("c1"%string
     ∉ default [] (Manager.session_connections Manager.__init__ !! 42))
  ∧ (∀ u, Some 7 = Some u →
          "c1"%string ∉ default [] (Manager.user_connections Manager.__init__ !! u))
  ∧ Manager.no_empty_lists (Manager.session_connections Manager.__init__)
  ∧ Manager.no_empty_lists (Manager.user_connections Manager.__init__)
  ∧ bind (Manager.connect 1 "c1" 42 (Some 7))
      (λ _, Manager.disconnect "c1" 42 (Some 7)) (Manager.__init__, world [])
    = (Ok tt, (Manager.__init__,
               set_io_trace (λ t, t ++ [Accepted 1%nat]) (world []))).
Proof.
  assert (H1 : 1%nat ∈ open_sockets (world [])) by (by vm_compute).
  assert (H2 : Manager.active_connections Manager.__init__ !! "c1"%string = None)
    by (vm_compute; reflexivity).
  assert (H3 : "c1"%string
               ∉ default [] (Manager.session_connections Manager.__init__ !! 42))
    by (vm_compute; by intros ?%elem_of_nil).
  assert (H4 : ∀ u, Some 7 = Some u →
                 "c1"%string
                 ∉ default [] (Manager.user_connections Manager.__init__ !! u))
    by (intros u _; vm_compute; by intros ?%elem_of_nil).
  assert (H5 : Manager.no_empty_lists (Manager.session_connections Manager.__init__))
    by (intros k l H; by vm_compute in H).
  assert (H6 : Manager.no_empty_lists (Manager.user_connections Manager.__init__))
    by (intros k l H; by vm_compute in H).
  do 6 (split; [assumption|]).
  exact (connect_disconnect_round_trip 1 "c1" 42 (Some 7) Manager.__init__
           (world []) H1 H2 H3 H4 H5 H6).
Defined.

Lemma connect_counts_witness :
  1%nat ∈ open_sockets (world [])
  ∧ (Manager.get_session_connection_count 42
       (Manager.connect 1 "c1" 42 None (Manager.__init__, world [])).2).1
    = Ok (S (List.length
               (default [] (Manager.session_connections Manager.__init__ !! 42)))).
Proof.
  assert (Ho : 1%nat ∈ open_sockets (world [])) by (by vm_compute).
  split; [exact Ho|].
  destruct (connect_counts 1 "c1" 42 None Manager.__init__ (world []) Ho)
    as (H1 & _). exact H1.
Defined.

Lemma send_to_user_keeps_registry_witness :
  Manager.user_connections single_process.1 !! 7 = Some ["c1"%string]
  ∧ ∃ n w', Manager.send_to_user 7 ping_message
              (single_process.1, single_process.2)
            = (Ok n, (single_process.1, w')).
Proof.
  assert (Hu : Manager.user_connections single_process.1 !! 7
               = Some ["c1"%string]) by (vm_compute; reflexivity).
  split; [exact Hu|].
  destruct (send_to_user_keeps_registry 7 ping_message
              single_process.1 single_process.2 _ Hu) as (w' & He & _).
  eexists _, w'. exact He.
Defined.

Lemma untyped_message_unregisters_witness :
  Manager.session_connections
    (Manager.connect 1 "c1" 42 None (Manager.__init__, world [])).2.1 !! 42
  = Some ["c1"%string]
  ∧ dict_get "type" untyped_message = None
  ∧ ∃ n s' w',
      Manager.send_to_session 42 untyped_message
        ((Manager.connect 1 "c1" 42 None (Manager.__init__, world [])).2.1,
         (Manager.connect 1 "c1" 42 None (Manager.__init__, world [])).2.2)
      = (Ok n, (s', w'))
      ∧ Manager.active_connections s' !! "c1"%string = None.
Proof.
  assert (Hs : Manager.session_connections
                 (Manager.connect 1 "c1" 42 None (Manager.__init__, world [])).2.1
                 !! 42 = Some ["c1"%string]) by (vm_compute; reflexivity).
  split; [exact Hs|]. split; [reflexivity|].
  destruct (untyped_message_unregisters 42 untyped_message _
              (Manager.connect 1 "c1" 42 None (Manager.__init__, world [])).2.2
              _ Hs eq_refl) as (s' & w' & He & _ & Hall).
  eexists _, s', w'. split; [exact He|].
  apply Hall; [left|]. eexists. vm_compute. reflexivity.
Defined.

Lemma connect_registers_witness :
  1%nat ∈ open_sockets process_a_started.2
  ∧ RedisManager.redis_client process_a_started.1 = true
  ∧ calm process_a_started.2
  ∧ ∃ s' w',
      RedisManager.connect 1 "c9" 5 None
        (process_a_started.1, process_a_started.2) = (Ok tt, (s', w'))
      ∧ target (redis w') "c9" = Some 5.
Proof.
  assert (Ho : 1%nat ∈ open_sockets process_a_started.2) by (by vm_compute).
  assert (Hc : RedisManager.redis_client process_a_started.1 = true)
    by (vm_compute; reflexivity).
  assert (Hw : calm process_a_started.2) by (vm_compute; reflexivity).
  split; [exact Ho|]. split; [exact Hc|]. split; [exact Hw|].
  destruct (connect_registers 1 "c9" 5 None _ _ Ho Hc Hw)
    as (s' & w' & He & _ & _ & Ht & _).
  exists s', w'. split; [exact He|exact Ht].
Defined.

Lemma connect_disconnect_store_round_trip_witness :
  1%nat ∈ open_sockets process_a_started.2
  ∧ RedisManager._initialized process_a_started.1 = true
  ∧ RedisManager.redis_client process_a_started.1 = true
  ∧ calm process_a_started.2
  ∧ RedisManager.local_connections process_a_started.1 !! "c9"%string = None
  ∧ hashes (redis process_a_started.2) !! (5, "c9"%string) = None
  ∧ reverse (redis process_a_started.2) !! "c9"%string = None
  ∧ ∃ w',
      (RedisManager.connect 1 "c9" 5 None ;;; RedisManager.disconnect "c9")
        (process_a_started.1, process_a_started.2)
      = (Ok tt, (process_a_started.1, w'))
      ∧ hashes (redis w') = hashes (redis process_a_started.2).
Proof.
  assert (H1 : 1%nat ∈ open_sockets process_a_started.2) by (by vm_compute).
  assert (H2 : RedisManager._initialized process_a_started.1 = true)
    by (vm_compute; reflexivity).
  assert (H3 : RedisManager.redis_client process_a_started.1 = true)
    by (vm_compute; reflexivity).
  assert (H4 : calm process_a_started.2) by (vm_compute; reflexivity).
  assert (H5 : RedisManager.local_connections process_a_started.1
                 !! "c9"%string = None) by (vm_compute; reflexivity).
  assert (H6 : hashes (redis process_a_started.2) !! (5, "c9"%string) = None)
    by (vm_compute; reflexivity).
  assert (H7 : reverse (redis process_a_started.2) !! "c9"%string = None)
    by (vm_compute; reflexivity).
  do 7 (split; [assumption|]).
  destruct (connect_disconnect_store_round_trip 1 "c9" 5 None
              process_a_started.1 process_a_started.2 H1 H2 H3 H4 H5 H6 H7)
    as (w' & He & Hh & _).
  exists w'. split; [exact He|exact Hh].
Defined.

Lemma uninitialized_disconnect_leaves_entry_witness :
  1%nat ∈ open_sockets process_a_idle.2
  ∧ RedisManager._initialized process_a_idle.1 = false
  ∧ RedisManager.redis_client process_a_idle.1 = true
  ∧ calm process_a_idle.2
  ∧ ∃ s' w',
      (RedisManager.connect 1 "c9" 5 None ;;; RedisManager.disconnect "c9")
        (process_a_idle.1, process_a_idle.2) = (Ok tt, (s', w'))
      ∧ RedisManager.local_connections s' !! "c9"%string = None
      ∧ target (redis w') "c9" = Some 5.
Proof.
  assert (H1 : 1%nat ∈ open_sockets process_a_idle.2) by (by vm_compute).
  assert (H2 : RedisManager._initialized process_a_idle.1 = false)
    by (vm_compute; reflexivity).
  assert (H3 : RedisManager.redis_client process_a_idle.1 = true)
    by (vm_compute; reflexivity).
  assert (H4 : calm process_a_idle.2) by (vm_compute; reflexivity).
  do 4 (split; [assumption|]).
  destruct (uninitialized_disconnect_leaves_entry 1 "c9" 5 None
              process_a_idle.1 process_a_idle.2 H1 H2 H3 H4)
    as (s' & w' & He & Hl & _ & _ & Ht).
  exists s', w'. split; [exact He|]. split; [exact Hl|exact Ht].
Defined.

Lemma initialize_cleanup_initialize_witness :
  RedisManager._initialized process_a_idle.1 = false
  ∧ RedisManager.redis_client process_a_idle.1 = true
  ∧ calm process_a_idle.2
  ∧ ∃ w3,
      RedisManager.initialize
        (exec RedisManager.cleanup
           (exec RedisManager.initialize (process_a_idle.1, process_a_idle.2)))
      = (Ok tt,
         (RedisManager.MkManager true
            (RedisManager.local_connections process_a_idle.1)
            (RedisManager.server_id process_a_idle.1)
            (Some (RedisManager.MkPubSub ["session:*"%string] false)) true
            (Some RedisManager.Running), w3)).
Proof.
  assert (H1 : RedisManager._initialized process_a_idle.1 = false)
    by (vm_compute; reflexivity).
  assert (H2 : RedisManager.redis_client process_a_idle.1 = true)
    by (vm_compute; reflexivity).
  assert (H3 : calm process_a_idle.2) by (vm_compute; reflexivity).
  do 3 (split; [assumption|]).
  destruct (initialize_cleanup_initialize process_a_idle.1 process_a_idle.2
              H1 H2 H3) as (w1 & w2 & w3 & _ & _ & E3 & _).
  exists w3. exact E3.
Defined.

Lemma listener_stops_on_broken_stream_witness :
  is_Some (RedisManager.pubsub (process_a []).1)
  ∧ Forall (λ message, plain_text (channel message) = true) [ghost_message]
  ∧ ∃ σ',
      RedisManager._redis_listener
        ((Delivered <$> [ghost_message]) ++ Broken :: [Delivered ghost_message])
        ((process_a []).1, (process_a []).2)
      = (Ok tt, σ').
Proof.
  assert (Hp : is_Some (RedisManager.pubsub (process_a []).1))
    by (eexists; vm_compute; reflexivity).
  assert (Hc : Forall (λ message, plain_text (channel message) = true)
                 [ghost_message])
    by (apply Forall_cons; split; [vm_compute; reflexivity|apply Forall_nil_2]).
  split; [exact Hp|]. split; [exact Hc|]. eexists.
  apply (listener_stops_on_broken_stream [ghost_message]
           [Delivered ghost_message] _ _ Hp Hc).
Defined.

Lemma dead_socket_is_unregistered_witness :
  RedisManager._initialized process_a_dead.1 = true
  ∧ RedisManager.redis_client process_a_dead.1 = true
  ∧ calm process_a_dead.2
  ∧ hashes (redis process_a_dead.2) !! (42, "c1"%string)
    = Some (WJson (JObj c1_info))
  ∧ eq_str (dict_get "server_id" c1_info)
      (RedisManager.server_id process_a_dead.1) = true
  ∧ RedisManager.local_connections process_a_dead.1 !! "c1"%string = Some 1%nat
  ∧ (1%nat ∉ open_sockets process_a_dead.2)
  ∧ target (redis process_a_dead.2) "c1" = Some 42
  ∧ ∃ n s' w',
      RedisManager._send_to_local_connections 42 ping_message
        (process_a_dead.1, process_a_dead.2) = (Ok n, (s', w'))
      ∧ RedisManager.local_connections s' !! "c1"%string = None
      ∧ hashes (redis w') !! (42, "c1"%string) = None.
Proof.
  assert (H1 : RedisManager._initialized process_a_dead.1 = true)
    by (vm_compute; reflexivity).
  assert (H2 : RedisManager.redis_client process_a_dead.1 = true)
    by (vm_compute; reflexivity).
  assert (H3 : calm process_a_dead.2) by (vm_compute; reflexivity).
  assert (H4 : hashes (redis process_a_dead.2) !! (42, "c1"%string)
               = Some (WJson (JObj c1_info))) by (vm_compute; reflexivity).
  assert (H5 : eq_str (dict_get "server_id" c1_info)
                 (RedisManager.server_id process_a_dead.1) = true)
    by (vm_compute; reflexivity).
  assert (H6 : RedisManager.local_connections process_a_dead.1 !! "c1"%string
               = Some 1%nat) by (vm_compute; reflexivity).
  assert (H7 : 1%nat ∉ open_sockets process_a_dead.2)
    by (vm_compute; intros H; discriminate H).
  assert (H8 : target (redis process_a_dead.2) "c1" = Some 42)
    by (vm_compute; reflexivity).
  do 8 (split; [assumption|]).
  destruct (dead_socket_is_unregistered 42 ping_message
              process_a_dead.1 process_a_dead.2 "c1" 1%nat c1_info
              H1 H2 H3 H4 H5 H6 H7 H8)
    as (n & s' & w' & He & Hl & Hh & _).
  exists n, s', w'. split; [exact He|]. split; [exact Hl|exact Hh].
Defined.

Lemma published_message_comes_back_witness :
  RedisManager._initialized (process_a []).1 = true
  ∧ RedisManager.redis_client (process_a []).1 = true
  ∧ calm (process_a []).2
  ∧ ∃ n s' w',
      RedisManager.send_to_session 42 ping_message
        ((process_a []).1, (process_a []).2) = (Ok n, (s', w'))
      ∧ published (redis w')
        = published (redis (process_a []).2)
          ++ [(RedisManager.session_channel 42,
               json_dumps (JObj (dict_set "server_id"
                                   (JStr (RedisManager.server_id (process_a []).1))
                                   ping_message)))].
Proof.
  assert (H1 : RedisManager._initialized (process_a []).1 = true)
    by (vm_compute; reflexivity).
  assert (H2 : RedisManager.redis_client (process_a []).1 = true)
    by (vm_compute; reflexivity).
  assert (H3 : calm (process_a []).2) by (vm_compute; reflexivity).
  do 3 (split; [assumption|]).
  destruct (published_message_comes_back 42 ping_message
              (process_a []).1 (process_a []).2 H1 H2 H3)
    as (n & s' & w' & He & Hp & _).
  exists n, s', w'. split; [exact He|exact Hp].
Defined.

Lemma repeated_send_repeats_writes_witness :
  RedisManager._initialized (process_a []).1 = true
  ∧ RedisManager.redis_client (process_a []).1 = true
  ∧ calm (process_a []).2
  ∧ omap (collected_id (process_a []).1 (open_sockets (process_a []).2))
      (hgetall 42 (redis (process_a []).2)).1 = []
  ∧ ∃ n w1 w2,
      RedisManager._send_to_local_connections 42 ping_message
        ((process_a []).1, (process_a []).2) = (Ok n, ((process_a []).1, w1))
      ∧ RedisManager._send_to_local_connections 42 ping_message
          ((process_a []).1, w1) = (Ok n, ((process_a []).1, w2)).
Proof.
  assert (H1 : RedisManager._initialized (process_a []).1 = true)
    by (vm_compute; reflexivity).
  assert (H2 : RedisManager.redis_client (process_a []).1 = true)
    by (vm_compute; reflexivity).
  assert (H3 : calm (process_a []).2) by (vm_compute; reflexivity).
  assert (H4 : omap (collected_id (process_a []).1 (open_sockets (process_a []).2))
                 (hgetall 42 (redis (process_a []).2)).1 = [])
    by (vm_compute; reflexivity).
  do 4 (split; [assumption|]).
  destruct (repeated_send_repeats_writes 42 ping_message
              (process_a []).1 (process_a []).2 H1 H2 H3 H4)
    as (n & w1 & w2 & E1 & E2 & _).
  exists n, w1, w2. split; [exact E1|exact E2].
Defined.

(** What the repeated send looks like on the wire: the same message
    twice on the one socket. *)
Example repeated_send_on_process_a :
  io_trace
    (exec (RedisManager._send_to_local_connections 42 ping_message)
       (exec (RedisManager._send_to_local_connections 42 ping_message)
          (process_a []))).2
  = [Accepted 1%nat; Sent 1%nat ping_message; Sent 1%nat ping_message].
Proof. by vm_compute. Qed.

Lemma failed_startup_refuses_sends_witness :
  (hd false (faults (world [true])) = true
   ∨ hd false (tail (faults (world [true]))) = true)
  ∧ ∃ g' w',
      (Package.initialize_websocket_manager true "aaaaaaaa" ;;;
       Package.on_ws_manager (RedisManager.send_to_session 42 ping_message))
        (None, world [true])
      = (Ok 0%nat, (g', w'))
      ∧ is_Some g'.
Proof.
  assert (H1 : hd false (faults (world [true])) = true
               ∨ hd false (tail (faults (world [true]))) = true)
    by (left; reflexivity).
  split; [exact H1|].
  destruct (failed_startup_refuses_sends "aaaaaaaa" 42 ping_message None
              (world [true]) H1) as (g' & w' & He & Hg & _).
  exists g', w'. split; [exact He|exact Hg].
Defined.

End MoreRuns.
